(** * Gravador Inteligente: the recording / transcription controller

    A shallow embedding of [src/app/page.tsx] (the [Home] component) and
    the properties of its orchestration logic.

    The component is event driven.  Every handler of the source is a
    computation in a small state-and-exception monad over the component's
    state; an [await] splits an async function in two halves, the second
    of which is resumed by the event that settles the awaited promise.
    The platform (microphone, recorder, file reader, transcription
    service, clipboard, DOM, clock) is the environment: what it answers
    is carried by the events. *)

From Stdlib Require Import ZArith NArith List String Ascii Bool Lia.
From Stdlib Require Import Strings.Byte DecimalString DecimalZ DecimalPos.
Import ListNotations.

(** ** JavaScript strings

    A JavaScript string is a sequence of UTF-16 code units. *)

Definition jsstring := list N.

(** Source literals are written as Rocq strings (UTF-8 bytes) and decoded
    to code units; one to three byte sequences cover the literals of the
    source. *)
Fixpoint utf16_of_utf8 (bs : list N) : jsstring :=
  match bs with
  | [] => []
  | b :: r =>
      if (b <? 128)%N then b :: utf16_of_utf8 r
      else if (b <? 224)%N then
        match r with
        | b2 :: r' => ((b - 192) * 64 + (b2 - 128))%N :: utf16_of_utf8 r'
        | [] => []
        end
      else
        match r with
        | b2 :: b3 :: r' =>
            ((b - 224) * 4096 + (b2 - 128) * 64 + (b3 - 128))%N
              :: utf16_of_utf8 r'
        | _ => []
        end
  end.

Definition js (s : string) : jsstring :=
  utf16_of_utf8 (map N_of_ascii (list_ascii_of_string s)).

Fixpoint str_eqb (a b : jsstring) : bool :=
  match a, b with
  | [], [] => true
  | x :: a', y :: b' => (x =? y)%N && str_eqb a' b'
  | _, _ => false
  end.

(** [ToBoolean] on a string: the empty string is the only falsy one. *)
Definition truthy (s : jsstring) : bool :=
  match s with [] => false | _ :: _ => true end.

(** [x || d] where [x] is a string or [undefined]. *)
Definition or_else (x : option jsstring) (d : jsstring) : jsstring :=
  match x with
  | Some s => if truthy s then s else d
  | None => d
  end.

(** [s.split(sep)] for a separator of one code unit.  The result is
    never empty: a string without the separator gives [[s]]. *)
Fixpoint split (sep : N) (s : jsstring) : list jsstring :=
  match s with
  | [] => [[]]
  | c :: s' =>
      if (c =? sep)%N then [] :: split sep s'
      else match split sep s' with
           | h :: t => (c :: h) :: t
           | [] => [[c]]
           end
  end.

(** WhiteSpace and LineTerminator code units of ECMAScript, the ones
    [String.prototype.trim] strips. *)
Definition is_space (c : N) : bool :=
  ((c =? 9) || (c =? 10) || (c =? 11) || (c =? 12) || (c =? 13)
   || (c =? 32) || (c =? 160) || (c =? 5760)
   || ((8192 <=? c) && (c <=? 8202))
   || (c =? 8232) || (c =? 8233) || (c =? 8239) || (c =? 8287)
   || (c =? 12288) || (c =? 65279))%N.

Fixpoint trimStart (s : jsstring) : jsstring :=
  match s with
  | c :: s' => if is_space c then trimStart s' else s
  | [] => []
  end.

Definition trimEnd (s : jsstring) : jsstring :=
  List.rev (trimStart (List.rev s)).

Definition trim (s : jsstring) : jsstring := trimEnd (trimStart s).

(** [n.toString()] for an integer [n]: decimal digits, a leading minus
    sign for negative numbers. *)
Definition toString (n : Z) : jsstring :=
  js (NilZero.string_of_int (Z.to_int n)).

Definition semicolon : N := 59.
Definition comma : N := 44.

(** ** Data of the component *)

(** A [Blob]: its bytes and its type tag; [size] is the number of bytes. *)
Record Blob := mkBlob { blob_bytes : list byte; blob_type : jsstring }.

Definition blob_size (b : Blob) : nat := List.length (blob_bytes b).

(** [new Blob(parts, { type })] concatenates the parts in array order. *)
Definition new_Blob (parts : list Blob) (type : jsstring) : Blob :=
  mkBlob (List.concat (map blob_bytes parts)) type.

(** [type Transcription = { id: string; text: string; timestamp: Date }] *)
Record Transcription := mkTranscription {
  id : jsstring;
  text : jsstring;
  timestamp : Z
}.

(** The [parts] of the request handed to [ai.models.generateContent]
    (the model name, system instruction and temperature are constants
    of the source and are left out). *)
Record Request := mkRequest {
  inlineData_data : option jsstring;
  inlineData_mimeType : jsstring;
  prompt_text : jsstring
}.

Inductive RecorderState := Recording | Inactive.

(** A [MediaRecorder] with the stream it was built on.  [rec_lang] is
    the [targetLanguage] captured by the closure of [startRecording]
    that created the recorder, the one its [onstop] handler sees. *)
Record Recorder := mkRecorder {
  rec_mimeType : jsstring;
  rec_lang : jsstring;
  rec_state : RecorderState;
  tracks_live : bool
}.

(** A node under [document.body]. *)
Record Node := mkNode { node_id : nat; node_value : jsstring }.

(** Where [navigator.clipboard.writeText] was awaited. *)
Inductive CopySite := InProcessAudio | InCopyButton.

(** The suspended halves of the async functions: what is waiting for a
    promise to settle or for a callback to fire. *)
Inductive Pending :=
| AwaitGetUserMedia (lang : jsstring)
| AwaitLoadEnd (audioBlob : Blob) (mimeType lang : jsstring)
| AwaitGenerateContent
| AwaitWriteText (site : CopySite) (t : Transcription).

(** Values thrown or rejected with. *)
Inductive Exn :=
| MediaError
| ServiceError
| ClipboardError
| ExecCommandError.

(** Calls into the platform, in the order they are made. *)
Inductive Effect :=
| PreventDefault
| GetUserMedia
| NewMediaRecorder (r : nat)
| RecorderStart (r : nat)
| RecorderStop (r : nat)
| TrackStop (r : nat)
| SetInterval (t : nat)
| ClearInterval (t : nat)
| SetTimeout
| ReadAsDataURL (b : Blob)
| GenerateContent (req : Request)
| WriteText (txt : jsstring)
| AppendChild (n : Node)
| SelectNode (n : nat)
| ExecCommandCopy
| RemoveChild (n : nat)
| ConsoleError (msg : jsstring)
| UnhandledRejection (e : Exn).

(** The state of the component: the React state of [Home], its three
    refs, and the part of the platform the handlers act on. *)
Record State := mkState {
  (* useState *)
  isRecording : bool;
  isProcessing : bool;
  error : option jsstring;
  transcriptions : list Transcription;
  copiedId : option jsstring;
  recordingTime : Z;
  targetLanguage : jsstring;
  (* useRef *)
  mediaRecorderRef : option nat;
  audioChunksRef : list Blob;
  timerRef : option nat;
  (* platform *)
  recorders : list Recorder;      (* a recorder's handle is its index *)
  intervals : list nat;           (* running interval timers *)
  next_timer : nat;
  timeouts : nat;                 (* pending [setCopiedId(null)] timeouts *)
  body : list Node;               (* children of [document.body] *)
  next_node : nat;
  pending : list Pending;
  log : list Effect
}.

Definition initial : State :=
  mkState false false None [] None 0 (js "Português")
          None [] None
          [] [] 1 0 [] 0 [] [].

(** Field updates. *)

Definition with_isRecording (v : bool) (s : State) : State :=
  mkState v (isProcessing s) (error s) (transcriptions s) (copiedId s)
          (recordingTime s) (targetLanguage s) (mediaRecorderRef s)
          (audioChunksRef s) (timerRef s) (recorders s) (intervals s)
          (next_timer s) (timeouts s) (body s) (next_node s) (pending s)
          (log s).

Definition with_isProcessing (v : bool) (s : State) : State :=
  mkState (isRecording s) v (error s) (transcriptions s) (copiedId s)
          (recordingTime s) (targetLanguage s) (mediaRecorderRef s)
          (audioChunksRef s) (timerRef s) (recorders s) (intervals s)
          (next_timer s) (timeouts s) (body s) (next_node s) (pending s)
          (log s).

Definition with_error (v : option jsstring) (s : State) : State :=
  mkState (isRecording s) (isProcessing s) v (transcriptions s) (copiedId s)
          (recordingTime s) (targetLanguage s) (mediaRecorderRef s)
          (audioChunksRef s) (timerRef s) (recorders s) (intervals s)
          (next_timer s) (timeouts s) (body s) (next_node s) (pending s)
          (log s).

Definition with_transcriptions (v : list Transcription) (s : State) : State :=
  mkState (isRecording s) (isProcessing s) (error s) v (copiedId s)
          (recordingTime s) (targetLanguage s) (mediaRecorderRef s)
          (audioChunksRef s) (timerRef s) (recorders s) (intervals s)
          (next_timer s) (timeouts s) (body s) (next_node s) (pending s)
          (log s).

Definition with_copiedId (v : option jsstring) (s : State) : State :=
  mkState (isRecording s) (isProcessing s) (error s) (transcriptions s) v
          (recordingTime s) (targetLanguage s) (mediaRecorderRef s)
          (audioChunksRef s) (timerRef s) (recorders s) (intervals s)
          (next_timer s) (timeouts s) (body s) (next_node s) (pending s)
          (log s).

Definition with_recordingTime (v : Z) (s : State) : State :=
  mkState (isRecording s) (isProcessing s) (error s) (transcriptions s)
          (copiedId s) v (targetLanguage s) (mediaRecorderRef s)
          (audioChunksRef s) (timerRef s) (recorders s) (intervals s)
          (next_timer s) (timeouts s) (body s) (next_node s) (pending s)
          (log s).

Definition with_targetLanguage (v : jsstring) (s : State) : State :=
  mkState (isRecording s) (isProcessing s) (error s) (transcriptions s)
          (copiedId s) (recordingTime s) v (mediaRecorderRef s)
          (audioChunksRef s) (timerRef s) (recorders s) (intervals s)
          (next_timer s) (timeouts s) (body s) (next_node s) (pending s)
          (log s).

Definition with_mediaRecorderRef (v : option nat) (s : State) : State :=
  mkState (isRecording s) (isProcessing s) (error s) (transcriptions s)
          (copiedId s) (recordingTime s) (targetLanguage s) v
          (audioChunksRef s) (timerRef s) (recorders s) (intervals s)
          (next_timer s) (timeouts s) (body s) (next_node s) (pending s)
          (log s).

Definition with_audioChunksRef (v : list Blob) (s : State) : State :=
  mkState (isRecording s) (isProcessing s) (error s) (transcriptions s)
          (copiedId s) (recordingTime s) (targetLanguage s)
          (mediaRecorderRef s) v (timerRef s) (recorders s) (intervals s)
          (next_timer s) (timeouts s) (body s) (next_node s) (pending s)
          (log s).

Definition with_timerRef (v : option nat) (s : State) : State :=
  mkState (isRecording s) (isProcessing s) (error s) (transcriptions s)
          (copiedId s) (recordingTime s) (targetLanguage s)
          (mediaRecorderRef s) (audioChunksRef s) v (recorders s)
          (intervals s) (next_timer s) (timeouts s) (body s) (next_node s)
          (pending s) (log s).

Definition with_recorders (v : list Recorder) (s : State) : State :=
  mkState (isRecording s) (isProcessing s) (error s) (transcriptions s)
          (copiedId s) (recordingTime s) (targetLanguage s)
          (mediaRecorderRef s) (audioChunksRef s) (timerRef s) v
          (intervals s) (next_timer s) (timeouts s) (body s) (next_node s)
          (pending s) (log s).

Definition with_timers (v : list nat) (n : nat) (s : State) : State :=
  mkState (isRecording s) (isProcessing s) (error s) (transcriptions s)
          (copiedId s) (recordingTime s) (targetLanguage s)
          (mediaRecorderRef s) (audioChunksRef s) (timerRef s) (recorders s)
          v n (timeouts s) (body s) (next_node s) (pending s) (log s).

Definition with_timeouts (v : nat) (s : State) : State :=
  mkState (isRecording s) (isProcessing s) (error s) (transcriptions s)
          (copiedId s) (recordingTime s) (targetLanguage s)
          (mediaRecorderRef s) (audioChunksRef s) (timerRef s) (recorders s)
          (intervals s) (next_timer s) v (body s) (next_node s) (pending s)
          (log s).

Definition with_dom (v : list Node) (n : nat) (s : State) : State :=
  mkState (isRecording s) (isProcessing s) (error s) (transcriptions s)
          (copiedId s) (recordingTime s) (targetLanguage s)
          (mediaRecorderRef s) (audioChunksRef s) (timerRef s) (recorders s)
          (intervals s) (next_timer s) (timeouts s) v n (pending s) (log s).

Definition with_pending (v : list Pending) (s : State) : State :=
  mkState (isRecording s) (isProcessing s) (error s) (transcriptions s)
          (copiedId s) (recordingTime s) (targetLanguage s)
          (mediaRecorderRef s) (audioChunksRef s) (timerRef s) (recorders s)
          (intervals s) (next_timer s) (timeouts s) (body s) (next_node s)
          v (log s).

Definition with_log (v : list Effect) (s : State) : State :=
  mkState (isRecording s) (isProcessing s) (error s) (transcriptions s)
          (copiedId s) (recordingTime s) (targetLanguage s)
          (mediaRecorderRef s) (audioChunksRef s) (timerRef s) (recorders s)
          (intervals s) (next_timer s) (timeouts s) (body s) (next_node s)
          (pending s) v.

(** ** Handlers as computations

    A handler either completes or throws; what it did to the state before
    throwing stays done. *)

Inductive Result (A : Type) :=
| Ok (a : A)
| Throw (e : Exn).

Arguments Ok {A} a.
Arguments Throw {A} e.

Definition M (A : Type) : Type := State -> Result A * State.

Definition ret {A} (a : A) : M A := fun s => (Ok a, s).

Definition bind {A B} (m : M A) (k : A -> M B) : M B :=
  fun s =>
    let (r, s') := m s in
    match r with
    | Ok a => k a s'
    | Throw e => (Throw e, s')
    end.

Definition throw {A} (e : Exn) : M A := fun s => (Throw e, s).

(** [try { m } catch (e) { h e }] *)
Definition try_catch {A} (m : M A) (h : Exn -> M A) : M A :=
  fun s =>
    let (r, s') := m s in
    match r with
    | Ok a => (Ok a, s')
    | Throw e => h e s'
    end.

Definition gets {A} (f : State -> A) : M A := fun s => (Ok (f s), s).

Definition modify (f : State -> State) : M unit := fun s => (Ok tt, f s).

Declare Scope js_scope.
Delimit Scope js_scope with js.
Notation "x <- c ;; k" := (bind c (fun x => k))
  (at level 61, c at next level, right associativity) : js_scope.
Notation "c ;; k" := (bind c (fun _ => k))
  (at level 61, right associativity) : js_scope.
Open Scope js_scope.

(** *** Lists addressed by index *)

Fixpoint update_nth {A} (i : nat) (f : A -> A) (l : list A) : list A :=
  match l with
  | [] => []
  | x :: l' =>
      match i with
      | O => f x :: l'
      | S i' => x :: update_nth i' f l'
      end
  end.

Fixpoint remove_nth {A} (i : nat) (l : list A) : list A :=
  match l with
  | [] => []
  | x :: l' =>
      match i with
      | O => l'
      | S i' => x :: remove_nth i' l'
      end
  end.

(** *** React state setters *)

Definition setIsRecording (v : bool) : M unit := modify (with_isRecording v).
Definition setIsProcessing (v : bool) : M unit := modify (with_isProcessing v).
Definition setError (v : option jsstring) : M unit := modify (with_error v).
Definition setTranscriptions
    (f : list Transcription -> list Transcription) : M unit :=
  modify (fun s => with_transcriptions (f (transcriptions s)) s).
Definition setCopiedId (v : option jsstring) : M unit :=
  modify (with_copiedId v).
Definition setRecordingTime (f : Z -> Z) : M unit :=
  modify (fun s => with_recordingTime (f (recordingTime s)) s).
Definition setTargetLanguage (v : jsstring) : M unit :=
  modify (with_targetLanguage v).

(** *** The platform *)

Definition call (e : Effect) : M unit :=
  modify (fun s => with_log (log s ++ [e]) s).

Definition suspend (p : Pending) : M unit :=
  modify (fun s => with_pending (pending s ++ [p]) s).

Definition console_error (msg : jsstring) : M unit := call (ConsoleError msg).

Inductive MediaOutcome := Granted (mimeType : jsstring) | Denied.
Inductive ServiceOutcome := Responded (text : option jsstring) | Rejected.
Inductive ExecOutcome := ExecTrue | ExecFalse | ExecThrows.

(** Resuming after [await]: a rejected promise throws at the [await]. *)
Definition await_getUserMedia (o : MediaOutcome) : M jsstring :=
  match o with
  | Granted mimeType => ret mimeType
  | Denied => throw MediaError
  end.

Definition await_generateContent (o : ServiceOutcome)
  : M (option jsstring) :=
  match o with
  | Responded text => ret text
  | Rejected => throw ServiceError
  end.

Definition await_writeText (written : bool) : M unit :=
  if written then ret tt else throw ClipboardError.

(** [new MediaRecorder(stream)]: the stream just obtained is live. *)
Definition new_MediaRecorder (mimeType lang : jsstring) : M nat :=
  fun s =>
    let r := List.length (recorders s) in
    (Ok r,
     with_log (log s ++ [NewMediaRecorder r])
       (with_recorders
          (recorders s ++ [mkRecorder mimeType lang Inactive true]) s)).

Definition set_rec_state (st : RecorderState) (rc : Recorder) : Recorder :=
  mkRecorder (rec_mimeType rc) (rec_lang rc) st (tracks_live rc).

Definition set_tracks_live (v : bool) (rc : Recorder) : Recorder :=
  mkRecorder (rec_mimeType rc) (rec_lang rc) (rec_state rc) v.

Definition recorder_start (r : nat) : M unit :=
  call (RecorderStart r) ;;
  modify (fun s =>
    with_recorders (update_nth r (set_rec_state Recording) (recorders s)) s).

Definition recorder_stop (r : nat) : M unit :=
  call (RecorderStop r) ;;
  modify (fun s =>
    with_recorders (update_nth r (set_rec_state Inactive) (recorders s)) s).

(** [stream.getTracks().forEach(track => track.stop())] *)
Definition stop_tracks (r : nat) : M unit :=
  call (TrackStop r) ;;
  modify (fun s =>
    with_recorders (update_nth r (set_tracks_live false) (recorders s)) s).

Definition setInterval : M nat :=
  fun s =>
    let t := next_timer s in
    (Ok t,
     with_log (log s ++ [SetInterval t])
       (with_timers (intervals s ++ [t]) (S t) s)).

Definition clearInterval (t : nat) : M unit :=
  call (ClearInterval t) ;;
  modify (fun s =>
    with_timers (filter (fun t' => negb (t' =? t)) (intervals s))
                (next_timer s) s).

Definition setTimeout : M unit :=
  call SetTimeout ;;
  modify (fun s => with_timeouts (S (timeouts s)) s).

Definition createElement : M nat :=
  fun s => (Ok (next_node s), with_dom (body s) (S (next_node s)) s).

Definition appendChild (n : Node) : M unit :=
  call (AppendChild n) ;;
  modify (fun s => with_dom (body s ++ [n]) (next_node s) s).

Definition select (n : nat) : M unit := call (SelectNode n).

Definition removeChild (n : nat) : M unit :=
  call (RemoveChild n) ;;
  modify (fun s =>
    with_dom (filter (fun c => negb (node_id c =? n)) (body s))
             (next_node s) s).

(** [document.execCommand('copy')]: it reports failure by returning
    [false] or, in some browsers, by throwing; the source ignores the
    returned value. *)
Definition execCommand_copy (o : ExecOutcome) : M bool :=
  call ExecCommandCopy ;;
  match o with
  | ExecTrue => ret true
  | ExecFalse => ret false
  | ExecThrows => throw ExecCommandError
  end.

(** ** The handlers of [Home] *)

(** The instruction sent with the audio (the template literal of
    [processAudio], written in pieces). *)
Definition prompt (lang : jsstring) : jsstring :=
  js "Transcreva o áudio a seguir. "
  ++ js "A saída DEVE ser obrigatoriamente no idioma: "
  ++ lang
  ++ js ". Se o áudio estiver em outro idioma, traduza-o para "
  ++ lang
  ++ js ". Corrija quaisquer erros gramaticais, gagueiras ou palavras "
  ++ js "mal compreendidas para torná-lo claro e profissional. "
  ++ js "Retorne APENAS o texto final, sem comentários adicionais.".

Definition msg_transcription_failed : jsstring :=
  js "Não foi possível transcrever o áudio.".

Definition msg_processing_failed : jsstring :=
  js "Ocorreu um erro ao processar o áudio com a IA.".

Definition msg_microphone_failed : jsstring :=
  js "Não foi possível acessar o microfone. "
  ++ js "Verifique as permissões do navegador.".

(** [const cleanMimeType = mimeType.split(';')[0] || 'audio/webm'] *)
Definition cleanMimeType (mimeType : jsstring) : jsstring :=
  or_else (nth_error (split semicolon mimeType) 0) (js "audio/webm").

(** [processAudio], up to the end of its body: it only registers the
    [onloadend] callback, so its [try] covers nothing of that callback. *)
Definition processAudio (audioBlob : Blob) (mimeType lang : jsstring)
  : M unit :=
  setIsProcessing true ;;
  try_catch
    (call (ReadAsDataURL audioBlob) ;;
     suspend (AwaitLoadEnd audioBlob mimeType lang))
    (fun err =>
       console_error (js "Error processing audio:") ;;
       setError (Some msg_processing_failed) ;;
       setIsProcessing false).

(** [reader.onloadend], up to [await ai.models.generateContent(...)]. *)
Definition onloadend (mimeType lang result : jsstring) : M unit :=
  let base64String := nth_error (split comma result) 1 in
  call (GenerateContent
          (mkRequest base64String (cleanMimeType mimeType) (prompt lang))) ;;
  suspend AwaitGenerateContent.

(** [reader.onloadend], from the settled [generateContent] to
    [await navigator.clipboard.writeText(correctedText)].  [now] is what
    [Date.now()] returns and [date] what [new Date()] holds. *)
Definition onloadend_response (o : ServiceOutcome) (now date : Z) : M unit :=
  text <- await_generateContent o ;;
  let correctedText := or_else (option_map trim text) [] in
  if truthy correctedText then
    let newTranscription := mkTranscription (toString now) correctedText date in
    setTranscriptions (fun prev => newTranscription :: prev) ;;
    call (WriteText correctedText) ;;
    suspend (AwaitWriteText InProcessAudio newTranscription)
  else
    setError (Some msg_transcription_failed) ;;
    setIsProcessing false.

(** [reader.onloadend], from the settled [writeText] to its end. *)
Definition onloadend_copied (newTranscription : Transcription)
    (written : bool) (exec : ExecOutcome) : M unit :=
  try_catch
    (await_writeText written ;;
     setCopiedId (Some (id newTranscription)) ;;
     setTimeout)
    (fun clipboardErr =>
       console_error (js "Failed to copy to clipboard:") ;;
       textArea <- createElement ;;
       appendChild (mkNode textArea (text newTranscription)) ;;
       select textArea ;;
       try_catch
         (_ <- execCommand_copy exec ;;
          setCopiedId (Some (id newTranscription)) ;;
          setTimeout)
         (fun err2 => console_error (js "Fallback copy failed")) ;;
       removeChild textArea) ;;
  setIsProcessing false.

(** The [onClick] of an entry's copy button, up to [await writeText]. *)
Definition copyButton_onClick (t : Transcription) : M unit :=
  call (WriteText (text t)) ;;
  suspend (AwaitWriteText InCopyButton t).

(** The same [onClick], from the settled [writeText] to its end. *)
Definition copyButton_copied (t : Transcription)
    (written : bool) (exec : ExecOutcome) : M unit :=
  try_catch
    (await_writeText written ;;
     setCopiedId (Some (id t)) ;;
     setTimeout)
    (fun err =>
       console_error (js "Failed to copy text: ") ;;
       textArea <- createElement ;;
       appendChild (mkNode textArea (text t)) ;;
       select textArea ;;
       try_catch
         (_ <- execCommand_copy exec ;;
          setCopiedId (Some (id t)) ;;
          setTimeout)
         (fun err2 => console_error (js "Fallback copy failed")) ;;
       removeChild textArea).

(** [startRecording], up to [await getUserMedia({ audio: true })]. *)
Definition startRecording : M unit :=
  setError None ;;
  lang <- gets targetLanguage ;;
  call GetUserMedia ;;
  suspend (AwaitGetUserMedia lang).

(** [mediaRecorder.ondataavailable] *)
Definition ondataavailable (data : Blob) : M unit :=
  if 0 <? blob_size data then
    modify (fun s => with_audioChunksRef (audioChunksRef s ++ [data]) s)
  else ret tt.

(** [mediaRecorder.onstop] of recorder [r]. *)
Definition onstop (r : nat) (rc : Recorder) : M unit :=
  chunks <- gets audioChunksRef ;;
  let audioBlob := new_Blob chunks (rec_mimeType rc) in
  processAudio audioBlob (rec_mimeType rc) (rec_lang rc) ;;
  stop_tracks r.

(** [startRecording], from the settled [getUserMedia] to its end; the
    [catch] is the one the [await] sits in. *)
Definition startRecording_stream (lang : jsstring) (o : MediaOutcome)
  : M unit :=
  try_catch
    (mimeType <- await_getUserMedia o ;;
     mediaRecorder <- new_MediaRecorder mimeType lang ;;
     modify (with_mediaRecorderRef (Some mediaRecorder)) ;;
     modify (with_audioChunksRef []) ;;
     recorder_start mediaRecorder ;;
     setIsRecording true ;;
     setRecordingTime (fun _ => 0%Z) ;;
     t <- setInterval ;;
     modify (with_timerRef (Some t)))
    (fun err =>
       console_error (js "Error accessing microphone:") ;;
       setError (Some msg_microphone_failed)).

Definition stopRecording : M unit :=
  ref <- gets mediaRecorderRef ;;
  rec <- gets isRecording ;;
  match ref with
  | Some mediaRecorder =>
      if rec then
        recorder_stop mediaRecorder ;;
        setIsRecording false ;;
        timer <- gets timerRef ;;
        match timer with
        | Some t => clearInterval t
        | None => ret tt
        end
      else ret tt
  | None => ret tt
  end.

(** Where a key event was aimed. *)
Inductive KeyTarget := OnInput | OnTextArea | Elsewhere.

(** The key listener.  An effect registers it again after every commit
    that changes [isRecording], [isProcessing] or one of the two
    callbacks; it is modelled as reading the flags of the last commit,
    that is, a key event is taken to arrive after the effect has run. *)
Definition handleKeyDown (target : KeyTarget) (code : jsstring) : M unit :=
  match target with
  | OnInput | OnTextArea => ret tt
  | Elsewhere =>
      if str_eqb code (js "Space") then
        call PreventDefault ;;
        rec <- gets isRecording ;;
        proc <- gets isProcessing ;;
        if negb rec && negb proc then startRecording
        else if rec then stopRecording
        else ret tt
      else ret tt
  end.

(** The main button: [onClick={isRecording ? stopRecording : startRecording}],
    [disabled={isProcessing}]. *)
Definition recordButton_onClick : M unit :=
  proc <- gets isProcessing ;;
  if proc then ret tt
  else
    rec <- gets isRecording ;;
    if rec then stopRecording else startRecording.

Definition languages : list jsstring :=
  [js "Português"; js "Inglês"; js "Espanhol"].

(** A language button: [disabled={isRecording || isProcessing}]. *)
Definition languageButton_onClick (k : nat) : M unit :=
  rec <- gets isRecording ;;
  proc <- gets isProcessing ;;
  if rec || proc then ret tt
  else match nth_error languages k with
       | Some lang => setTargetLanguage lang
       | None => ret tt
       end.

(** ** The event loop *)

(** What the environment delivers.  A settling event names the suspended
    computation it resumes by its position in [pending].

    A handler reads the React state as it is when its event arrives:
    every event is taken to find the component rendered again, and its
    listeners registered again, with the updates of the events before it.
    What one handler sets before an [await] and after it belongs to two
    different events. *)
Inductive Event :=
| KeyDown (target : KeyTarget) (code : jsstring)
| ClickRecord
| ClickLanguage (k : nat)
| ClickCopy (k : nat)
| MediaSettled (i : nat) (o : MediaOutcome)
| DataAvailable (r : nat) (data : Blob)
| Stopped (r : nat)
| LoadEnd (i : nat) (result : jsstring)
| GenerateSettled (i : nat) (o : ServiceOutcome) (now date : Z)
| WriteTextSettled (i : nat) (written : bool) (exec : ExecOutcome)
| Tick (t : nat)
| TimeoutFired.

(** A task of the event loop: nobody awaits the promise of a handler, so
    an exception leaving it is an unhandled rejection and nothing more. *)
Definition run_task (m : M unit) (s : State) : State :=
  let (r, s') := m s in
  match r with
  | Ok _ => s'
  | Throw e => with_log (log s' ++ [UnhandledRejection e]) s'
  end.

Definition resume (i : nat) (s : State) : State :=
  with_pending (remove_nth i (pending s)) s.

Definition step (ev : Event) (s : State) : State :=
  match ev with
  | KeyDown target code => run_task (handleKeyDown target code) s
  | ClickRecord => run_task recordButton_onClick s
  | ClickLanguage k => run_task (languageButton_onClick k) s
  | ClickCopy k =>
      match nth_error (transcriptions s) k with
      | Some t => run_task (copyButton_onClick t) s
      | None => s
      end
  | MediaSettled i o =>
      match nth_error (pending s) i with
      | Some (AwaitGetUserMedia lang) =>
          run_task (startRecording_stream lang o) (resume i s)
      | _ => s
      end
  | DataAvailable r data =>
      match nth_error (recorders s) r with
      | Some _ => run_task (ondataavailable data) s
      | None => s
      end
  | Stopped r =>
      match nth_error (recorders s) r with
      | Some rc => run_task (onstop r rc) s
      | None => s
      end
  | LoadEnd i result =>
      match nth_error (pending s) i with
      | Some (AwaitLoadEnd _ mimeType lang) =>
          run_task (onloadend mimeType lang result) (resume i s)
      | _ => s
      end
  | GenerateSettled i o now date =>
      match nth_error (pending s) i with
      | Some AwaitGenerateContent =>
          run_task (onloadend_response o now date) (resume i s)
      | _ => s
      end
  | WriteTextSettled i written exec =>
      match nth_error (pending s) i with
      | Some (AwaitWriteText InProcessAudio t) =>
          run_task (onloadend_copied t written exec) (resume i s)
      | Some (AwaitWriteText InCopyButton t) =>
          run_task (copyButton_copied t written exec) (resume i s)
      | _ => s
      end
  | Tick t =>
      if existsb (Nat.eqb t) (intervals s)
      then run_task (setRecordingTime (fun prev => (prev + 1)%Z)) s
      else s
  | TimeoutFired =>
      match timeouts s with
      | S n => run_task (setCopiedId None) (with_timeouts n s)
      | O => s
      end
  end.

(** Events are handled one after the other. *)
Definition run (evs : list Event) (s : State) : State :=
  fold_left (fun s ev => step ev s) evs s.

(** ** Observations *)

Definition is_recording (rc : Recorder) : bool :=
  match rec_state rc with Recording => true | Inactive => false end.

Definition is_processing (p : Pending) : bool :=
  match p with
  | AwaitLoadEnd _ _ _ | AwaitGenerateContent
  | AwaitWriteText InProcessAudio _ => true
  | _ => false
  end.

(** Sessions in flight: recorders that are recording, and recordings on
    their way through [processAudio]. *)
Definition sessions_in_flight (s : State) : nat :=
  List.length (filter is_recording (recorders s))
  + List.length (filter is_processing (pending s)).

(** Streams obtained from the device and not released. *)
Definition devices_held (s : State) : nat :=
  List.length (filter tracks_live (recorders s)).

Definition is_GetUserMedia (e : Effect) : bool :=
  match e with GetUserMedia => true | _ => false end.

Definition space : jsstring := js "Space".

(** Code units of the ASCII range. *)
Definition all_ascii (l : list N) : Prop := Forall (fun b => (b < 128)%N) l.

(** The bytes of a literal, before decoding. *)
Definition code_units (s : string) : list N :=
  map N_of_ascii (list_ascii_of_string s).

(** The two ways to ask for a recording: the space bar outside a text
    field, and the main button. *)
Definition start_command (ev : Event) : Prop :=
  ev = KeyDown Elsewhere space \/ ev = ClickRecord.

(** [event.data.size > 0] *)
Definition nonempty (data : Blob) : bool := 0 <? blob_size data.

Arguments nonempty : simpl never.

Definition is_grant (ev : Event) : bool :=
  match ev with MediaSettled _ (Granted _) => true | _ => false end.

(** The chunks a run delivers to recorder [r], in the order of
    delivery. *)
Fixpoint delivered_to (r : nat) (evs : list Event) : list Blob :=
  match evs with
  | [] => []
  | DataAvailable r' data :: evs' =>
      if r' =? r then data :: delivered_to r evs' else delivered_to r evs'
  | _ :: evs' => delivered_to r evs'
  end.

(** The chunks a run delivers to any of the recorders [0 .. n-1], in the
    order of delivery. *)
Fixpoint delivered_to_any (n : nat) (evs : list Event) : list Blob :=
  match evs with
  | [] => []
  | DataAvailable r data :: evs' =>
      if r <? n then data :: delivered_to_any n evs'
      else delivered_to_any n evs'
  | _ :: evs' => delivered_to_any n evs'
  end.

(** An event that leaves recorder [r] alone with the chunk list: it
    grants no device request and delivers no chunk of another
    recorder. *)
Definition own_session (r : nat) (ev : Event) : bool :=
  match ev with
  | MediaSettled _ (Granted _) => false
  | DataAvailable r' _ => r' =? r
  | _ => true
  end.

(** An event that settles a pending promise or callback. *)
Definition settles (ev : Event) : bool :=
  match ev with
  | MediaSettled _ _ | LoadEnd _ _ | GenerateSettled _ _ _ _
  | WriteTextSettled _ _ _ => true
  | _ => false
  end.

(** What a recorder is created with and keeps. *)
Definition rec_key (rc : Recorder) : jsstring * jsstring :=
  (rec_mimeType rc, rec_lang rc).


(** The reading of [Date.now()] an event takes to make an entry: the
    settlement of a pending transcription call whose text, trimmed, is
    not empty.  No other event makes an entry. *)
Definition creates_entry (ev : Event) (s : State) : option Z :=
  match ev with
  | GenerateSettled i (Responded (Some T)) now _ =>
      match nth_error (pending s) i with
      | Some AwaitGenerateContent =>
          if truthy (trim T) then Some now else None
      | _ => None
      end
  | _ => None
  end.

(** The readings at which the entries made during a run were created,
    newest first, as the history lists the entries. *)
Fixpoint creation_readings (evs : list Event) (s : State) : list Z :=
  match evs with
  | [] => []
  | ev :: evs' =>
      creation_readings evs' (step ev s)
      ++ match creates_entry ev s with
         | Some now => [now]
         | None => []
         end
  end.

(** The legacy copy command failed: it returned [false] or it threw. *)
Definition exec_failed (exec : ExecOutcome) : Prop :=
  exec = ExecFalse \/ exec = ExecThrows.

Definition is_ConsoleError (e : Effect) : bool :=
  match e with ConsoleError _ => true | _ => false end.

Definition is_UnhandledRejection (e : Effect) : bool :=
  match e with UnhandledRejection _ => true | _ => false end.

(** Node identifiers in use are below the next one to be handed out. *)
Definition dom_fresh (s : State) : Prop :=
  Forall (fun c => node_id c < next_node s) (body s).

(** ** Sample runs *)

Definition webm_opus : jsstring := js "audio/webm;codecs=opus".

Definition chunk (bytes : list byte) : Blob := mkBlob bytes webm_opus.

(** A recording session played from the first key press to the request
    being on its way: start, grant, stop, the recorded chunk, the stop
    event, the end of the file reader. *)
Definition session_until_request : list Event :=
  [ KeyDown Elsewhere space;
    MediaSettled 0 (Granted webm_opus);
    KeyDown Elsewhere space;
    DataAvailable 0 (chunk [x01; x02]%byte);
    Stopped 0;
    LoadEnd 0 (js "data:audio/webm;codecs=opus;base64,AQI=") ].

(** The space bar pressed twice before the device answers, then both
    requests granted. *)
Definition double_start : list Event :=
  [ KeyDown Elsewhere space;
    KeyDown Elsewhere space;
    MediaSettled 0 (Granted webm_opus);
    MediaSettled 0 (Granted webm_opus) ].

(** What a recording sees between its start and its stop: a chunk, a
    tick of the timer, the stop command, an empty chunk, the last
    chunk. *)
Definition recording_events : list Event :=
  [ DataAvailable 0 (chunk [x01; x02]%byte);
    Tick 1;
    KeyDown Elsewhere space;
    DataAvailable 0 (chunk []);
    DataAvailable 0 (chunk [x03]%byte) ].

(** A second session, played after the first one has ended. *)
Definition second_session : list Event :=
  [ KeyDown Elsewhere space;
    MediaSettled 0 (Granted webm_opus);
    KeyDown Elsewhere space;
    DataAvailable 1 (chunk [x03]%byte);
    Stopped 1;
    LoadEnd 0 (js "data:audio/webm;codecs=opus;base64,Aw==") ].

(** Two complete sessions whose transcriptions arrive while the clock
    shows the same millisecond. *)
Definition same_millisecond : list Event :=
  session_until_request
  ++ [ GenerateSettled 0 (Responded (Some (js "first"))) 1700 1700;
       WriteTextSettled 0 true ExecTrue ]
  ++ second_session
  ++ [ GenerateSettled 0 (Responded (Some (js "second"))) 1700 1700;
       WriteTextSettled 0 true ExecTrue ].

(** The same two sessions with the clock one millisecond further at the
    second transcription. *)
Definition later_millisecond : list Event :=
  session_until_request
  ++ [ GenerateSettled 0 (Responded (Some (js "first"))) 1700 1700;
       WriteTextSettled 0 true ExecTrue ]
  ++ second_session
  ++ [ GenerateSettled 0 (Responded (Some (js "second"))) 1701 1701;
       WriteTextSettled 0 true ExecTrue ].

(** The space bar pressed twice before the device answers, and the first
    request granted: recorder 0 records and one request is pending. *)
Definition one_recording_one_request : State :=
  run (firstn 3 double_start) initial.

(** The microphone is unplugged while two recorders run: each recorder
    delivers what it has and stops, recorder 0 first. *)
Definition unplugged : list Event :=
  [ DataAvailable 0 (chunk [x01]%byte);
    Stopped 0;
    DataAvailable 1 (chunk [x02]%byte) ].

(** After a doubled start the space bar stops the second recorder, the
    one the ref points at; the first recorder ends later, when its
    stream does, and delivers its chunk then. *)
Definition orphan_ends_last : list Event :=
  double_start
  ++ [ KeyDown Elsewhere space;
       DataAvailable 1 (chunk [x02]%byte);
       Stopped 1;
       DataAvailable 0 (chunk [x01]%byte) ].

(** A session whose transcription has arrived and whose clipboard write
    is pending. *)
Definition awaiting_copy : State :=
  run (session_until_request
       ++ [GenerateSettled 0 (Responded (Some (js "Hello world."))) 1700 1701])
      initial.

Definition hello_entry : Transcription :=
  mkTranscription (toString 1700) (js "Hello world.") 1701.

(** ** The elapsed-time display *)

Definition colon : N := 58.
Definition digit_zero : N := 48.

(** [s.padStart(targetLength, pad)] for a pad of one code unit. *)
Definition padStart (targetLength : nat) (pad : N) (s : jsstring) : jsstring :=
  List.repeat pad (targetLength - List.length s) ++ s.

(** [formatTime], for the integers the timer counts: [Math.floor] of the
    quotient and the remainder of [%], each padded to two digits. *)
Definition formatTime (seconds : Z) : jsstring :=
  let mins := (seconds / 60)%Z in
  let secs := Z.rem seconds 60 in
  padStart 2 digit_zero (toString mins)
  ++ [colon]
  ++ padStart 2 digit_zero (toString secs).


(** Reading a decimal numeral back, leading zeros allowed. *)
Definition read_decimal (s : jsstring) : option Z :=
  option_map Z.of_int
    (NilZero.int_of_string (string_of_list_ascii (map ascii_of_N s))).

(** A numeral with [k] zeros in front. *)
Fixpoint zeros (k : nat) (u : Decimal.uint) : Decimal.uint :=
  match k with
  | O => u
  | S k' => Decimal.D0 (zeros k' u)
  end.

(** The first code unit, if there is one, is not white space. *)
Definition lead_ok (s : jsstring) : Prop :=
  match s with
  | c :: _ => is_space c = false
  | [] => True
  end.

(** Recorder [r] exists and its stream has been released. *)
Definition released (s : State) (r : nat) : Prop :=
  exists rc, nth_error (recorders s) r = Some rc /\ tracks_live rc = false.

(** The messages the component can show. *)
Definition shown_errors : list (option jsstring) :=
  [None; Some msg_microphone_failed; Some msg_transcription_failed].

(** While the controller shows Recording, the refs hold a recorder that
    exists and a timer. *)
Definition refs_set (s : State) : Prop :=
  isRecording s = true ->
  exists r t,
    mediaRecorderRef s = Some r /\ r < List.length (recorders s) /\
    timerRef s = Some t.

(** * Properties *)

Arguments js : simpl never.
Arguments prompt : simpl never.
Arguments cleanMimeType : simpl never.
Arguments trim : simpl never.
Arguments toString : simpl never.
Arguments msg_transcription_failed : simpl never.
Arguments msg_processing_failed : simpl never.
Arguments msg_microphone_failed : simpl never.
Arguments space : simpl never.

(** Symbolic execution of a handler: unfold the monad and the handlers,
    then split on whatever the code branches on. *)
Ltac unfold_handlers :=
  cbv beta iota zeta delta
    [run_task resume handleKeyDown recordButton_onClick
     languageButton_onClick copyButton_onClick copyButton_copied
     startRecording startRecording_stream stopRecording ondataavailable
     onstop processAudio onloadend onloadend_response onloadend_copied
     bind ret throw try_catch gets modify call suspend console_error
     setIsRecording setIsProcessing setError setTranscriptions setCopiedId
     setRecordingTime setTargetLanguage await_getUserMedia
     await_generateContent await_writeText new_MediaRecorder recorder_start
     recorder_stop stop_tracks setInterval clearInterval setTimeout
     createElement appendChild select removeChild execCommand_copy].

Ltac case_split :=
  match goal with
  | |- context [match ?x with _ => _ end] =>
      lazymatch x with
      | context [match _ with _ => _ end] => fail
      | _ => destruct x eqn:?
      end
  end.

Ltac crunch := unfold_handlers; cbn; repeat (case_split; cbn).

(** ** Strings *)

Section Strings.

Variable sep : N.

(** Element 0 of [s.split(sep)] is [s] up to its first separator. *)
Lemma split_first (s : jsstring) :
  exists base rest,
    nth_error (split sep s) 0 = Some base /\
    s = base ++ rest /\
    ~ In sep base /\
    (rest = [] \/ exists r, rest = sep :: r).
Proof.
  induction s as [|c s IH]; simpl.
  - exists [], []. repeat split; auto.
  - destruct (N.eqb_spec c sep) as [->|Hne].
    + exists [], (sep :: s). simpl. repeat split; eauto.
    + destruct IH as (base & rest & H0 & Hs & Hin & Hrest).
      destruct (split sep s) as [|h t]; [discriminate|].
      simpl in H0. injection H0 as ->.
      exists (c :: base), rest. simpl. repeat split; auto.
      * now rewrite Hs.
      * intros [E|E]; [congruence | contradiction].
Qed.

End Strings.

Lemma or_else_nil (x : jsstring) : or_else (Some x) [] = x.
Proof. destruct x; reflexivity. Qed.

Lemma or_else_default (base d : jsstring) :
  or_else (Some base) d = match base with [] => d | _ :: _ => base end.
Proof. destruct base; reflexivity. Qed.

(** Decoding is the identity on ASCII, which is all a decimal numeral
    is made of. *)
Lemma utf16_of_utf8_ascii (l : list N) : all_ascii l -> utf16_of_utf8 l = l.
Proof.
  induction 1 as [|b l Hb _ IH]; simpl; [reflexivity|].
  apply N.ltb_lt in Hb. rewrite Hb, IH. reflexivity.
Qed.

(** ** Decimal identifiers *)


Lemma digits_ascii (d : Decimal.uint) :
  all_ascii (code_units (NilEmpty.string_of_uint d)).
Proof.
  unfold all_ascii, code_units.
  induction d; simpl; constructor; auto; reflexivity.
Qed.

Lemma numeral_ascii (d : Decimal.signed_int) :
  all_ascii (code_units (NilZero.string_of_int d)).
Proof.
  assert (Hu : forall u, all_ascii (code_units (NilZero.string_of_uint u))).
  { intros u. destruct u; try apply digits_ascii.
    repeat constructor. }
  destruct d as [u|u]; simpl; [apply Hu|].
  constructor; [reflexivity | apply Hu].
Qed.



(** ** Runs *)

Lemma run_app (evs1 evs2 : list Event) (s : State) :
  run (evs1 ++ evs2) s = run evs2 (run evs1 s).
Proof. apply fold_left_app. Qed.

Lemma run_cons (ev : Event) (evs : list Event) (s : State) :
  run (ev :: evs) s = run evs (step ev s).
Proof. reflexivity. Qed.

(** ** The content type sent to the service *)

(** C7. Whatever the recorder's content type is, the [mimeType] of the
    request handed to the transcription service is that content type cut
    before its first [';'], the part [base] below, and ['audio/webm'] when
    that part is empty. *)
Theorem transmitted_mime_type
    (s : State) (i : nat) (audioBlob : Blob) (mimeType lang result : jsstring) :
  nth_error (pending s) i = Some (AwaitLoadEnd audioBlob mimeType lang) ->
  exists base rest req,
    mimeType = base ++ rest /\
    ~ In semicolon base /\
    (rest = [] \/ exists params, rest = semicolon :: params) /\
    log (step (LoadEnd i result) s) = log s ++ [GenerateContent req] /\
    inlineData_mimeType req
    = match base with [] => js "audio/webm" | _ :: _ => base end.
Proof.
  intros Hp.
  destruct (split_first semicolon mimeType)
    as (base & rest & H0 & Hs & Hin & Hrest).
  exists base, rest,
    (mkRequest (nth_error (split comma result) 1) (cleanMimeType mimeType)
               (prompt lang)).
  repeat split; auto.
  - unfold step. rewrite Hp. reflexivity.
  - cbn. unfold cleanMimeType. rewrite H0. apply or_else_default.
Qed.

Lemma transmitted_mime_type_witness :
  let s := run (firstn 5 session_until_request) initial in
  nth_error (pending s) 0
  = Some (AwaitLoadEnd (chunk [x01; x02]%byte) webm_opus (js "Português")) /\
  exists base rest req,
    webm_opus = base ++ rest /\
    ~ In semicolon base /\
    (rest = [] \/ exists params, rest = semicolon :: params) /\
    log (step (LoadEnd 0 (js "data:audio/webm;codecs=opus;base64,AQI=")) s)
    = log s ++ [GenerateContent req] /\
    inlineData_mimeType req
    = match base with [] => js "audio/webm" | _ :: _ => base end.
Proof.
  split; [reflexivity|].
  apply (transmitted_mime_type
           (run (firstn 5 session_until_request) initial) 0
           (chunk [x01; x02]%byte) webm_opus (js "Português")).
  reflexivity.
Defined.

(** ** Starting a recording *)

Lemma str_eqb_space : str_eqb space (js "Space") = true.
Proof. reflexivity. Qed.

Lemma nth_error_snoc {A} (l : list A) (x : A) :
  nth_error (l ++ [x]) (List.length l) = Some x.
Proof. induction l; simpl; auto. Qed.

Lemma remove_nth_snoc {A} (l : list A) (x : A) :
  remove_nth (List.length l) (l ++ [x]) = l.
Proof. induction l; simpl; congruence. Qed.

(** From Idle a start command clears the error and asks for the device;
    nothing else happens until the device answers. *)
Lemma start_from_idle (s : State) (start : Event) :
  start_command start ->
  isRecording s = false ->
  isProcessing s = false ->
  exists l,
    filter is_GetUserMedia l = [] /\
    step start s
    = with_pending (pending s ++ [AwaitGetUserMedia (targetLanguage s)])
        (with_log (log s ++ l ++ [GetUserMedia]) (with_error None s)).
Proof.
  intros [->| ->] Hr Hp; unfold step.
  - exists [PreventDefault]. split; [reflexivity|].
    unfold_handlers. rewrite str_eqb_space. cbn.
    rewrite Hr, Hp. cbn. rewrite <- app_assoc. reflexivity.
  - exists []. split; [reflexivity|].
    unfold_handlers. cbn. rewrite Hp, Hr. reflexivity.
Qed.

(** C4. A start command issued from Idle whose device request is refused
    leaves the controller Idle: [isRecording] is false after the command
    and after the refusal, no recorder is created, no interval timer is
    started, no session is in flight, no device is held, and [error] is
    the microphone message. *)
Theorem denied_permission_stays_idle (s : State) (start : Event) :
  start_command start ->
  isRecording s = false ->
  isProcessing s = false ->
  let s1 := step start s in
  let s2 := step (MediaSettled (List.length (pending s)) Denied) s1 in
  isRecording s1 = false /\
  isRecording s2 = false /\
  isProcessing s2 = false /\
  error s2 = Some msg_microphone_failed /\
  recorders s2 = recorders s /\
  intervals s2 = intervals s /\
  next_timer s2 = next_timer s /\
  timerRef s2 = timerRef s /\
  sessions_in_flight s2 = sessions_in_flight s /\
  devices_held s2 = devices_held s.
Proof.
  intros Hstart Hr Hp s1 s2.
  destruct (start_from_idle s start Hstart Hr Hp) as (l & _ & Hs1).
  subst s2 s1. rewrite Hs1. unfold step. cbn [pending with_pending].
  rewrite nth_error_snoc. unfold_handlers. cbn. rewrite remove_nth_snoc.
  repeat split; auto.
Qed.

Lemma denied_permission_stays_idle_witness :
  let s1 := step ClickRecord initial in
  let s2 := step (MediaSettled 0 Denied) s1 in
  isRecording s1 = false /\
  isRecording s2 = false /\
  isProcessing s2 = false /\
  error s2 = Some msg_microphone_failed /\
  recorders s2 = [] /\
  intervals s2 = [] /\
  next_timer s2 = 1 /\
  timerRef s2 = None /\
  sessions_in_flight s2 = 0 /\
  devices_held s2 = 0.
Proof.
  apply (denied_permission_stays_idle initial ClickRecord).
  - right. reflexivity.
  - reflexivity.
  - reflexivity.
Defined.

Lemma nth_error_middle {A} (l l' : list A) (x : A) :
  nth_error (l ++ x :: l') (List.length l) = Some x.
Proof. induction l; simpl; auto. Qed.

Lemma remove_nth_middle {A} (l l' : list A) (x : A) :
  remove_nth (List.length l) (l ++ x :: l') = l ++ l'.
Proof. induction l; simpl; congruence. Qed.

Lemma update_nth_length {A} (f : A -> A) (i : nat) (l : list A) :
  List.length (update_nth i f l) = List.length l.
Proof. revert i; induction l; intros [|i]; simpl; auto. Qed.

Lemma update_nth_snoc {A} (f : A -> A) (l : list A) (x : A) :
  update_nth (List.length l) f (l ++ [x]) = l ++ [f x].
Proof. induction l; simpl; congruence. Qed.

(** A granted request: the recorder is created on the new stream and
    started, the refs are set, the chunk list is emptied, the timer
    started. *)
Lemma granted_from_pending (s : State) (i : nat) (lang mimeType : jsstring) :
  nth_error (pending s) i = Some (AwaitGetUserMedia lang) ->
  let s' := step (MediaSettled i (Granted mimeType)) s in
  recorders s' = recorders s ++ [mkRecorder mimeType lang Recording true] /\
  pending s' = remove_nth i (pending s) /\
  audioChunksRef s' = [] /\
  mediaRecorderRef s' = Some (List.length (recorders s)) /\
  isRecording s' = true /\
  isProcessing s' = isProcessing s /\
  intervals s' = intervals s ++ [next_timer s] /\
  timerRef s' = Some (next_timer s) /\
  log s' = log s ++ [NewMediaRecorder (List.length (recorders s));
                      RecorderStart (List.length (recorders s));
                      SetInterval (next_timer s)].
Proof.
  intros Hp s'. subst s'. unfold step. rewrite Hp. unfold_handlers. cbn.
  rewrite update_nth_snoc. cbn. rewrite <- !app_assoc. cbn. repeat split; auto.
Qed.

(** C1. Two start commands that both arrive before the device has
    answered the first one (the guard of [handleKeyDown] and the main
    button read [isRecording], which is set only after the [await]) each
    obtain the device: once both requests are granted there are two more
    sessions in flight, two more streams held, two more [getUserMedia]
    calls and two more interval timers than before. *)
Theorem double_start_two_sessions
    (s : State) (start1 start2 : Event) (m1 m2 : jsstring) :
  start_command start1 ->
  start_command start2 ->
  isRecording s = false ->
  isProcessing s = false ->
  let n := List.length (pending s) in
  let s' := run [start1; start2;
                 MediaSettled n (Granted m1); MediaSettled n (Granted m2)] s in
  sessions_in_flight s' = sessions_in_flight s + 2 /\
  devices_held s' = devices_held s + 2 /\
  List.length (filter is_GetUserMedia (log s'))
  = List.length (filter is_GetUserMedia (log s)) + 2 /\
  List.length (intervals s') = List.length (intervals s) + 2.
Proof.
  intros H1 H2 Hr Hp n s'.
  destruct (start_from_idle s start1 H1 Hr Hp) as (l1 & G1 & E1).
  set (s1 := step start1 s) in *.
  assert (Hr1 : isRecording s1 = false) by (rewrite E1; exact Hr).
  assert (Hp1 : isProcessing s1 = false) by (rewrite E1; exact Hp).
  destruct (start_from_idle s1 start2 H2 Hr1 Hp1) as (l2 & G2 & E2).
  set (s2 := step start2 s1) in *.
  set (a := AwaitGetUserMedia (targetLanguage s)).
  assert (P2 : pending s2 = pending s ++ [a; a]).
  { rewrite E2, E1. cbn. rewrite <- app_assoc. reflexivity. }
  assert (R2 : recorders s2 = recorders s) by (rewrite E2, E1; reflexivity).
  assert (I2 : intervals s2 = intervals s) by (rewrite E2, E1; reflexivity).
  assert (L2 : log s2 = (log s ++ l1 ++ [GetUserMedia]) ++ l2 ++ [GetUserMedia])
    by (rewrite E2, E1; reflexivity).
  assert (N2 : nth_error (pending s2) n = Some a)
    by (rewrite P2; apply nth_error_middle).
  destruct (granted_from_pending s2 n (targetLanguage s) m1 N2)
    as (R3 & P3 & _ & _ & _ & _ & I3 & _ & L3).
  set (s3 := step (MediaSettled n (Granted m1)) s2) in *.
  assert (N3 : nth_error (pending s3) n = Some a).
  { rewrite P3, P2. unfold n. rewrite remove_nth_middle. apply nth_error_snoc. }
  destruct (granted_from_pending s3 n (targetLanguage s) m2 N3)
    as (R4 & P4 & _ & _ & _ & _ & I4 & _ & L4).
  assert (E' : s' = step (MediaSettled n (Granted m2)) s3) by reflexivity.
  rewrite <- E' in *. clear E'.
  assert (P' : pending s' = pending s).
  { rewrite P4, P3, P2. unfold n.
    rewrite remove_nth_middle. apply remove_nth_snoc. }
  unfold sessions_in_flight, devices_held.
  rewrite P', R4, R3, R2, I4, I3, I2, L4, L3, L2.
  rewrite !filter_app, !length_app, G1, G2. cbn. lia.
Qed.

Lemma double_start_two_sessions_witness :
  let s' := run double_start initial in
  sessions_in_flight s' = 2 /\
  devices_held s' = 2 /\
  List.length (filter is_GetUserMedia (log s')) = 2 /\
  List.length (intervals s') = 2.
Proof.
  apply (double_start_two_sessions
           initial (KeyDown Elsewhere space) (KeyDown Elsewhere space)
           webm_opus webm_opus).
  - left. reflexivity.
  - left. reflexivity.
  - reflexivity.
  - reflexivity.
Defined.

(** What the doubled start leaves behind: the refs point at the second
    recorder and timer only, so after the stop command and a complete
    transcription the controller shows Idle while the first recorder
    still records, its stream is still held and its timer still runs. *)
Example double_start_orphans_first_recorder :
  let s :=
    run (double_start ++
         [ KeyDown Elsewhere space;
           Stopped 1;
           LoadEnd 0 (js "data:audio/webm;codecs=opus;base64,AQI=");
           GenerateSettled 0 (Responded (Some (js "Hello world."))) 1700 1701;
           WriteTextSettled 0 true ExecTrue ]) initial in
  isRecording s = false /\
  isProcessing s = false /\
  pending s = [] /\
  sessions_in_flight s = 1 /\
  devices_held s = 1 /\
  intervals s = [1].
Proof. repeat split; reflexivity. Qed.

(** The guard as far as it goes: a start command that finds the
    controller Recording or Processing asks for no device and creates no
    recorder (while Recording it is taken as the stop command). *)
Lemma start_ignored_while_busy (s : State) (start : Event) :
  start_command start ->
  isRecording s = true \/ isProcessing s = true ->
  let s' := step start s in
  filter is_GetUserMedia (log s') = filter is_GetUserMedia (log s) /\
  pending s' = pending s /\
  List.length (recorders s') = List.length (recorders s).
Proof.
  intros [->| ->] Hbusy; unfold step; unfold_handlers;
    rewrite ?str_eqb_space; cbn.
  all: destruct (isRecording s) eqn:Hr, (isProcessing s) eqn:Hp;
    try (destruct Hbusy; discriminate); cbn; rewrite ?Hr; cbn; auto.
  all: repeat (case_split; cbn).
  all: rewrite ?filter_app, ?update_nth_length; cbn;
    rewrite ?app_nil_r; auto.
Qed.

(** ** The end of processing *)

(** Only a response with usable text changes the history, and it puts
    one entry in front. *)
Lemma step_transcriptions (ev : Event) (s : State) :
  transcriptions (step ev s) = transcriptions s \/
  exists i T now date,
    ev = GenerateSettled i (Responded (Some T)) now date /\
    transcriptions (step ev s)
    = mkTranscription (toString now) (trim T) date :: transcriptions s.
Proof.
  destruct ev; unfold step; try (crunch; auto; fail).
  destruct (nth_error (pending s) i) as [[| | |]|] eqn:Hp; auto.
  destruct o as [[T|]|]; try (crunch; auto; fail).
  unfold_handlers. cbn [option_map]. rewrite or_else_nil.
  destruct (trim T) eqn:HT; cbn; auto.
  right. exists i, T, now, date. rewrite HT. auto.
Qed.

(** C3. When the transcription call resolves with a text [T] whose
    [T.trim()] is not empty, one entry whose text is [T.trim()] is put in
    front of the history, a clipboard write of that text is issued, and
    however that write settles the history stays the old one with that
    single entry in front. *)
Theorem transcription_prepended
    (s : State) (i : nat) (T : jsstring) (now date : Z) :
  nth_error (pending s) i = Some AwaitGenerateContent ->
  trim T <> [] ->
  let s1 := step (GenerateSettled i (Responded (Some T)) now date) s in
  exists e,
    text e = trim T /\
    transcriptions s1 = e :: transcriptions s /\
    log s1 = log s ++ [WriteText (trim T)] /\
    pending s1
    = remove_nth i (pending s) ++ [AwaitWriteText InProcessAudio e] /\
    forall j written exec,
      transcriptions (step (WriteTextSettled j written exec) s1)
      = e :: transcriptions s.
Proof.
  intros Hp HT s1.
  exists (mkTranscription (toString now) (trim T) date).
  set (e := mkTranscription (toString now) (trim T) date).
  assert (Hs1 : transcriptions s1 = e :: transcriptions s /\
                log s1 = log s ++ [WriteText (trim T)] /\
                pending s1
                = remove_nth i (pending s)
                  ++ [AwaitWriteText InProcessAudio e]).
  { subst s1. unfold step. rewrite Hp. unfold_handlers.
    cbn [option_map]. rewrite or_else_nil.
    subst e. destruct (trim T) eqn:E; [congruence|]. cbn. auto. }
  destruct Hs1 as (Ht & Hl & Hpend).
  repeat split; auto.
  intros j written exec.
  destruct (step_transcriptions (WriteTextSettled j written exec) s1)
    as [H|(i' & T' & n' & d' & Hev & _)]; [|discriminate].
  now rewrite H.
Qed.

Lemma transcription_prepended_witness :
  let s := run session_until_request initial in
  let s1 :=
    step (GenerateSettled 0 (Responded (Some (js "  Hello world. "))) 1700 1701)
         s in
  exists e,
    text e = js "Hello world." /\
    transcriptions s1 = [e] /\
    log s1 = log s ++ [WriteText (js "Hello world.")] /\
    pending s1 = [AwaitWriteText InProcessAudio e] /\
    forall j written exec,
      transcriptions (step (WriteTextSettled j written exec) s1) = [e].
Proof.
  apply (transcription_prepended
           (run session_until_request initial) 0 (js "  Hello world. ")
           1700 1701).
  - reflexivity.
  - discriminate.
Defined.

(** C2. A transcription call that rejects is thrown at the [await]
    inside the [onloadend] callback, where no [try] encloses it: the
    rejection goes unhandled, [isProcessing] and [error] keep the values
    they had (true and, after a start, null), and the history is
    unchanged. *)
Theorem rejected_call_leaves_processing
    (s : State) (i : nat) (now date : Z) :
  nth_error (pending s) i = Some AwaitGenerateContent ->
  let s' := step (GenerateSettled i Rejected now date) s in
  isProcessing s' = isProcessing s /\
  error s' = error s /\
  transcriptions s' = transcriptions s /\
  log s' = log s ++ [UnhandledRejection ServiceError].
Proof.
  intros Hp s'. subst s'. unfold step. rewrite Hp.
  unfold_handlers. cbn. auto.
Qed.

Lemma rejected_call_leaves_processing_witness :
  let s := run session_until_request initial in
  let s' := step (GenerateSettled 0 Rejected 1700 1701) s in
  isProcessing s' = true /\
  error s' = None /\
  transcriptions s' = [] /\
  log s' = log s ++ [UnhandledRejection ServiceError].
Proof.
  apply (rejected_call_leaves_processing
           (run session_until_request initial) 0 1700 1701).
  reflexivity.
Defined.

(** The sibling path: a response without usable text does return the
    controller to Idle with an error and leaves the history alone. *)
Lemma empty_transcription_returns_to_idle
    (s : State) (i : nat) (text : option jsstring) (now date : Z) :
  nth_error (pending s) i = Some AwaitGenerateContent ->
  or_else (option_map trim text) [] = [] ->
  let s' := step (GenerateSettled i (Responded text) now date) s in
  isProcessing s' = false /\
  error s' = Some msg_transcription_failed /\
  transcriptions s' = transcriptions s.
Proof.
  intros Hp He s'. subst s'. unfold step. rewrite Hp.
  unfold_handlers. rewrite He. cbn. auto.
Qed.

(** While Processing, the user's commands change nothing but the log:
    there is no way out of a Processing state that no settling event
    ends. *)
Lemma processing_ignores_user (s : State) (ev : Event) :
  isRecording s = false ->
  isProcessing s = true ->
  (exists target code, ev = KeyDown target code) \/
  ev = ClickRecord \/ (exists k, ev = ClickLanguage k) ->
  let s' := step ev s in
  isProcessing s' = true /\ isRecording s' = false /\
  pending s' = pending s /\ recorders s' = recorders s /\
  error s' = error s.
Proof.
  intros Hr Hp [(target & code & ->)|[->|(k & ->)]]; unfold step;
    unfold_handlers; cbn; rewrite ?Hr, ?Hp; cbn.
  - destruct target; cbn; auto.
    destruct (str_eqb code (js "Space")); cbn; rewrite ?Hr, ?Hp; cbn; auto.
  - auto.
  - auto.
Qed.

(** ** Audio chunks *)

Lemma with_audioChunksRef_same (s : State) :
  with_audioChunksRef (audioChunksRef s) s = s.
Proof. destruct s; reflexivity. Qed.

Lemma map_update_nth {A B} (g : A -> B) (f : A -> A) (i : nat) (l : list A) :
  (forall x, g (f x) = g x) -> map g (update_nth i f l) = map g l.
Proof.
  intros Hg. revert i. induction l as [|x l IH]; intros [|i]; cbn;
    rewrite ?Hg, ?IH; reflexivity.
Qed.

Lemma delivered_to_any_cons (n : nat) (ev : Event) (evs : list Event) :
  delivered_to_any n (ev :: evs)
  = delivered_to_any n [ev] ++ delivered_to_any n evs.
Proof.
  destruct ev; try reflexivity. cbn [delivered_to_any].
  destruct (r <? n); reflexivity.
Qed.

(** An event that grants no device leaves every recorder its content
    type and language, and adds to the chunk list, at its end, the chunk
    it delivers, whichever recorder it is from, if that chunk is not
    empty. *)
Lemma step_no_grant (ev : Event) (s : State) :
  is_grant ev = false ->
  audioChunksRef (step ev s)
  = audioChunksRef s
    ++ filter nonempty (delivered_to_any (List.length (recorders s)) [ev]) /\
  map rec_key (recorders (step ev s)) = map rec_key (recorders s).
Proof.
  intros Hg. destruct ev; try discriminate; unfold step.
  all: try (crunch; rewrite ?map_update_nth by reflexivity;
            rewrite ?app_nil_r; auto; fail).
  - destruct (nth_error (pending s) i) as [[| | |]|]; cbn;
      rewrite ?app_nil_r; auto.
    destruct o; [discriminate|]. crunch. auto.
  - cbn [delivered_to_any]. destruct (nth_error (recorders s) r) eqn:E.
    + assert (Hr : r < List.length (recorders s))
        by (apply nth_error_Some; congruence).
      apply Nat.ltb_lt in Hr. rewrite Hr. unfold_handlers.
      cbn [filter]. unfold nonempty.
      destruct (0 <? blob_size data); cbn; rewrite ?app_nil_r; auto.
    + apply nth_error_None in E. apply Nat.ltb_ge in E. rewrite E.
      cbn. rewrite app_nil_r. auto.
Qed.

Lemma run_no_grant (evs : list Event) :
  forall s,
    existsb is_grant evs = false ->
    audioChunksRef (run evs s)
    = audioChunksRef s
      ++ filter nonempty (delivered_to_any (List.length (recorders s)) evs) /\
    map rec_key (recorders (run evs s)) = map rec_key (recorders s).
Proof.
  induction evs as [|ev evs IH]; intros s Hg.
  - cbn. rewrite app_nil_r. auto.
  - cbn in Hg. apply orb_false_iff in Hg. destruct Hg as [Hev Hevs].
    rewrite run_cons.
    destruct (step_no_grant ev s Hev) as [Ha Hr].
    destruct (IH (step ev s) Hevs) as [Ha' Hr'].
    assert (Hn : List.length (recorders (step ev s))
                 = List.length (recorders s)).
    { rewrite <- (length_map rec_key), Hr. apply length_map. }
    rewrite Ha', Ha, Hr', Hn, (delivered_to_any_cons _ ev evs), filter_app,
      app_assoc.
    auto.
Qed.

(** The [stop] event of a recorder hands [processAudio] a blob made of
    the chunk list as it is at that moment. *)
Lemma stopped_pending (s : State) (r : nat) (rc : Recorder) :
  nth_error (recorders s) r = Some rc ->
  pending (step (Stopped r) s)
  = pending s
    ++ [AwaitLoadEnd (new_Blob (audioChunksRef s) (rec_mimeType rc))
                     (rec_mimeType rc) (rec_lang rc)].
Proof. intros H. unfold step. rewrite H. reflexivity. Qed.

Lemma empty_blob_bytes (c : Blob) : nonempty c = false -> blob_bytes c = [].
Proof.
  unfold nonempty, blob_size. destruct (blob_bytes c); [reflexivity|].
  discriminate.
Qed.

(** Leaving the empty chunks out does not change the concatenation. *)
Lemma concat_nonempty (cs : list Blob) :
  List.concat (map blob_bytes (filter nonempty cs))
  = List.concat (map blob_bytes cs).
Proof.
  induction cs as [|c cs IH]; cbn; [reflexivity|].
  destruct (nonempty c) eqn:E; cbn; rewrite IH; [reflexivity|].
  now rewrite (empty_blob_bytes c E).
Qed.

(** A whole recording: the device is granted, events follow among which
    no other grant, and the recorder stops.  The payload is made of the
    chunk list, which holds the chunks of every recorder. *)
Lemma recording_assembles (s0 : State) (i : nat) (lang mimeType : jsstring)
    (evs : list Event) :
  nth_error (pending s0) i = Some (AwaitGetUserMedia lang) ->
  existsb is_grant evs = false ->
  let r := List.length (recorders s0) in
  let s := run (MediaSettled i (Granted mimeType) :: evs) s0 in
  audioChunksRef s = filter nonempty (delivered_to_any (S r) evs) /\
  pending (step (Stopped r) s)
  = pending s
    ++ [AwaitLoadEnd
          (new_Blob (filter nonempty (delivered_to_any (S r) evs)) mimeType)
          mimeType lang].
Proof.
  intros Hp Hg r s.
  destruct (granted_from_pending s0 i lang mimeType Hp)
    as (R1 & _ & A1 & _).
  cbv zeta in R1, A1.
  remember (step (MediaSettled i (Granted mimeType)) s0) as s1 eqn:Es1.
  assert (Hs : s = run evs s1) by (subst s s1; reflexivity).
  clearbody s. subst s.
  destruct (run_no_grant evs s1 Hg) as [Ha Hr].
  assert (Hn : List.length (recorders s1) = S r).
  { rewrite R1, length_app. cbn. unfold r. lia. }
  rewrite A1, Hn in Ha. cbn in Ha.
  split; [exact Ha|].
  assert (Hrec : exists rc, nth_error (recorders (run evs s1)) r = Some rc /\
                            rec_key rc = (mimeType, lang)).
  { assert (Hk : nth_error (map rec_key (recorders (run evs s1))) r
                 = Some (mimeType, lang)).
    { rewrite Hr, R1, map_app. cbn. unfold r.
      rewrite <- (length_map rec_key). apply nth_error_snoc. }
    rewrite nth_error_map in Hk.
    destruct (nth_error (recorders (run evs s1)) r) as [rc|];
      [|discriminate].
    exists rc. split; [reflexivity|]. cbn in Hk. congruence. }
  destruct Hrec as (rc & Hrc & Hkey).
  unfold rec_key in Hkey. injection Hkey as Hm Hl.
  rewrite (stopped_pending _ _ _ Hrc), Ha, Hm, Hl. reflexivity.
Qed.

(** The chunks of the recorders [0 .. r] are those of the recorders
    [0 .. r-1] and those of recorder [r]. *)
Lemma delivered_bytes_split (r : nat) (evs : list Event) :
  List.length (List.concat (map blob_bytes (delivered_to_any (S r) evs)))
  = List.length (List.concat (map blob_bytes (delivered_to_any r evs)))
    + List.length (List.concat (map blob_bytes (delivered_to r evs))).
Proof.
  induction evs as [|ev evs IH]; [reflexivity|].
  destruct ev; cbn [delivered_to_any delivered_to]; try exact IH.
  destruct (Nat.ltb_spec r0 (S r)), (Nat.ltb_spec r0 r),
    (Nat.eqb_spec r0 r); try lia; cbn [map List.concat];
    rewrite ?length_app; lia.
Qed.

Lemma nonempty_bytes (cs : list Blob) :
  existsb nonempty cs = true ->
  0 < List.length (List.concat (map blob_bytes cs)).
Proof.
  induction cs as [|c cs IH]; cbn; [discriminate|].
  intros H. rewrite length_app. apply orb_true_iff in H.
  destruct H as [H|H].
  - unfold nonempty, blob_size in H. apply Nat.ltb_lt in H. lia.
  - specialize (IH H). lia.
Qed.

Lemma own_session_no_grant (r : nat) (evs : list Event) :
  forallb (own_session r) evs = true -> existsb is_grant evs = false.
Proof.
  induction evs as [|ev evs IH]; cbn; [reflexivity|].
  intros H. apply andb_true_iff in H. destruct H as [Hev Hevs].
  rewrite (IH Hevs), orb_false_r.
  destruct ev; try reflexivity. destruct o; [discriminate|reflexivity].
Qed.

Lemma own_session_delivered (r : nat) (evs : list Event) :
  forallb (own_session r) evs = true ->
  delivered_to_any (S r) evs = delivered_to r evs.
Proof.
  induction evs as [|ev evs IH]; cbn [forallb]; [reflexivity|].
  intros H. apply andb_true_iff in H. destruct H as [Hev Hevs].
  destruct ev; cbn [delivered_to_any delivered_to]; auto.
  cbn in Hev. rewrite Hev. apply Nat.eqb_eq in Hev. subst r0.
  assert (Hlt : (r <? S r) = true) by (apply Nat.ltb_lt; lia).
  rewrite Hlt, (IH Hevs). reflexivity.
Qed.

(** C5, where the code departs from it. The chunk list is one list for
    all recorders.  When another recorder exists (after two start
    commands given before the device answered, the defect of C1) and
    delivers a non-empty chunk during the recording, the payload handed
    over at the stop of the recorder is the concatenation of the chunks
    delivered to every recorder, in the order of delivery, and is not
    the concatenation of the chunks delivered to the recorder. *)
Theorem payload_mixes_recorders
    (s0 : State) (i : nat) (lang mimeType : jsstring) (evs : list Event) :
  nth_error (pending s0) i = Some (AwaitGetUserMedia lang) ->
  existsb is_grant evs = false ->
  let r := List.length (recorders s0) in
  existsb nonempty (delivered_to_any r evs) = true ->
  let s := run (MediaSettled i (Granted mimeType) :: evs) s0 in
  exists payload,
    pending (step (Stopped r) s)
    = pending s ++ [AwaitLoadEnd payload mimeType lang] /\
    blob_bytes payload
    = List.concat (map blob_bytes (delivered_to_any (S r) evs)) /\
    blob_bytes payload
    <> List.concat (map blob_bytes (delivered_to r evs)).
Proof.
  intros Hp Hg r Hother s.
  destruct (recording_assembles s0 i lang mimeType evs Hp Hg)
    as [_ Hstop].
  exists (new_Blob (filter nonempty (delivered_to_any (S r) evs)) mimeType).
  split; [exact Hstop|].
  assert (Hbytes :
    blob_bytes
      (new_Blob (filter nonempty (delivered_to_any (S r) evs)) mimeType)
    = List.concat (map blob_bytes (delivered_to_any (S r) evs)))
    by apply concat_nonempty.
  split; [exact Hbytes|].
  rewrite Hbytes. intros Heq.
  pose proof (delivered_bytes_split r evs) as Hsplit.
  pose proof (nonempty_bytes _ Hother) as Hpos.
  rewrite Heq in Hsplit. lia.
Qed.

Lemma payload_mixes_recorders_witness :
  let s0 := one_recording_one_request in
  let r := List.length (recorders s0) in
  let s := run (MediaSettled 0 (Granted webm_opus) :: unplugged) s0 in
  nth_error (pending s0) 0 = Some (AwaitGetUserMedia (js "Português")) /\
  existsb is_grant unplugged = false /\
  existsb nonempty (delivered_to_any r unplugged) = true /\
  exists payload,
    pending (step (Stopped r) s)
    = pending s ++ [AwaitLoadEnd payload webm_opus (js "Português")] /\
    blob_bytes payload
    = List.concat (map blob_bytes (delivered_to_any (S r) unplugged)) /\
    blob_bytes payload
    <> List.concat (map blob_bytes (delivered_to r unplugged)).
Proof.
  split; [reflexivity|]. split; [reflexivity|]. split; [reflexivity|].
  exact (payload_mixes_recorders one_recording_one_request 0
           (js "Português") webm_opus unplugged eq_refl eq_refl eq_refl).
Defined.

(** The same run, computed: the second recorder was delivered the byte
    02 and hands over 01 02. *)
Example unplugged_payload :
  let s := run (MediaSettled 0 (Granted webm_opus) :: unplugged)
               one_recording_one_request in
  delivered_to 1 unplugged = [chunk [x02]%byte] /\
  pending (step (Stopped 1) s)
  = pending s
    ++ [AwaitLoadEnd (mkBlob [x01; x02]%byte webm_opus) webm_opus
                     (js "Português")].
Proof. vm_compute. split; reflexivity. Qed.

(** No event puts an empty chunk in the chunk list. *)
Lemma step_chunks_nonempty (ev : Event) (s : State) :
  Forall (fun c => nonempty c = true) (audioChunksRef s) ->
  Forall (fun c => nonempty c = true) (audioChunksRef (step ev s)).
Proof.
  intros H. destruct ev; unfold step; try (crunch; auto; fail).
  destruct (nth_error (recorders s) r); [|exact H].
  unfold_handlers. fold (nonempty data).
  destruct (nonempty data) eqn:E; cbn; [|exact H].
  apply Forall_app. split; [exact H|]. constructor; [exact E|constructor].
Qed.

Lemma run_chunks_nonempty (evs : list Event) (s : State) :
  Forall (fun c => nonempty c = true) (audioChunksRef s) ->
  Forall (fun c => nonempty c = true) (audioChunksRef (run evs s)).
Proof.
  revert s. induction evs as [|ev evs IH]; intros s H; [exact H|].
  rewrite run_cons. apply IH, step_chunks_nonempty, H.
Qed.

(** C10, what holds of it and where the code departs from it. A
    delivered chunk of size zero is never accumulated: in every run,
    every chunk of the chunk list has a positive size.  But the chunk
    list is emptied only when a device request is granted and is one
    list for all recorders: after two start commands given before the
    device answered (the defect of C1), the second recorder is stopped
    and hands over its chunk, the byte 02; the first recorder, when it
    ends, was delivered the byte 01 and hands over 02 01. *)
Theorem empty_chunks_dropped (evs : list Event) :
  Forall (fun c => 0 < blob_size c) (audioChunksRef (run evs initial)) /\
  let s := run orphan_ends_last initial in
  filter (fun c => 0 <? blob_size c) (delivered_to 0 orphan_ends_last)
  = [chunk [x01]%byte] /\
  audioChunksRef s = [chunk [x02]%byte; chunk [x01]%byte] /\
  pending (step (Stopped 0) s)
  = pending s
    ++ [AwaitLoadEnd (mkBlob [x02; x01]%byte webm_opus) webm_opus
                     (js "Português")].
Proof.
  split.
  - assert (H : Forall (fun c => nonempty c = true)
                       (audioChunksRef (run evs initial)))
      by (apply run_chunks_nonempty; constructor).
    eapply Forall_impl; [|exact H].
    intros c Hc. apply Nat.ltb_lt. exact Hc.
  - vm_compute. repeat split; reflexivity.
Qed.

(** ** Identifiers of the history *)





(** The readings of the two sample runs. *)
Example sample_creation_readings :
  creation_readings later_millisecond initial = [1701; 1700]%Z /\
  creation_readings same_millisecond initial = [1700; 1700]%Z.
Proof. vm_compute. split; reflexivity. Qed.


(** The same collision without the clock standing still between two
    sessions: after a doubled start both recorders end, both recordings
    are transcribed, and the two responses arrive within one
    millisecond. *)
Example overlapping_sessions_same_id :
  let s :=
    run (double_start ++
         [ Stopped 0; Stopped 1;
           LoadEnd 0 (js "data:audio/webm;codecs=opus;base64,AQI=");
           LoadEnd 0 (js "data:audio/webm;codecs=opus;base64,AQI=");
           GenerateSettled 0 (Responded (Some (js "first"))) 1700 1700;
           GenerateSettled 0 (Responded (Some (js "second"))) 1700 1700 ])
        initial in
  map id (transcriptions s) = [toString 1700; toString 1700] /\
  map text (transcriptions s) = [js "second"; js "first"].
Proof. split; reflexivity. Qed.

(** ** Copying to the clipboard *)

(** C8. When the clipboard write is rejected and the legacy copy fails
    as well, at either copy site, [error] is what it was, the history is
    what it was, the failure is written to the console and nothing is
    thrown out of the handler. *)
Theorem clipboard_failure_is_silent
    (s : State) (i : nat) (site : CopySite) (t : Transcription)
    (exec : ExecOutcome) :
  nth_error (pending s) i = Some (AwaitWriteText site t) ->
  exec_failed exec ->
  let s' := step (WriteTextSettled i false exec) s in
  error s' = error s /\
  transcriptions s' = transcriptions s /\
  exists l,
    log s' = log s ++ l /\
    existsb is_ConsoleError l = true /\
    existsb is_UnhandledRejection l = false.
Proof.
  intros Hp Hexec s'. subst s'. unfold step. rewrite Hp.
  destruct site, Hexec as [-> | ->]; unfold_handlers; cbn;
    repeat split; auto;
    rewrite <- ?app_assoc; cbn; eexists; (split; [reflexivity|]);
    split; reflexivity.
Qed.

Lemma clipboard_failure_is_silent_witness :
  let s' := step (WriteTextSettled 0 false ExecThrows) awaiting_copy in
  error s' = None /\
  transcriptions s' = [hello_entry] /\
  exists l,
    log s' = log awaiting_copy ++ l /\
    existsb is_ConsoleError l = true /\
    existsb is_UnhandledRejection l = false.
Proof.
  apply (clipboard_failure_is_silent
           awaiting_copy 0 InProcessAudio hello_entry ExecThrows).
  - reflexivity.
  - right. reflexivity.
Defined.

Lemma remove_appended (n : nat) (v : jsstring) (l : list Node) :
  Forall (fun c => node_id c < n) l ->
  filter (fun c => negb (node_id c =? n)) (l ++ [mkNode n v]) = l.
Proof.
  intros H. rewrite filter_app. cbn. rewrite Nat.eqb_refl. cbn.
  rewrite app_nil_r. induction H as [|c l Hc _ IH]; cbn; [reflexivity|].
  destruct (Nat.eqb_spec (node_id c) n); [lia|]. cbn. now rewrite IH.
Qed.

(** C9. Whenever the clipboard write is rejected, at either copy site and
    whatever the legacy copy command does, the text area that is appended
    to [document.body] is removed again before the handler ends: the
    children of the body are the ones there were. *)
Theorem fallback_leaves_no_element
    (s : State) (i : nat) (site : CopySite) (t : Transcription)
    (exec : ExecOutcome) :
  dom_fresh s ->
  nth_error (pending s) i = Some (AwaitWriteText site t) ->
  let s' := step (WriteTextSettled i false exec) s in
  let textArea := mkNode (next_node s) (text t) in
  body s' = body s /\
  exists l1 l2,
    log s' = log s ++ l1 ++ [AppendChild textArea] ++ l2 /\
    In (RemoveChild (node_id textArea)) l2.
Proof.
  intros Hfresh Hp s' textArea. subst s' textArea. unfold step. rewrite Hp.
  destruct site, exec; unfold_handlers; cbn;
    rewrite (remove_appended _ _ _ Hfresh); (split; [reflexivity|]);
    rewrite <- ?app_assoc; cbn;
    eexists [_]; eexists; (split; [reflexivity|]); cbn; auto 10.
Qed.

Lemma fallback_leaves_no_element_witness :
  let s' := step (WriteTextSettled 0 false ExecThrows) awaiting_copy in
  let textArea := mkNode 0 (js "Hello world.") in
  body s' = [] /\
  exists l1 l2,
    log s' = log awaiting_copy ++ l1 ++ [AppendChild textArea] ++ l2 /\
    In (RemoveChild (node_id textArea)) l2.
Proof.
  apply (fallback_leaves_no_element
           awaiting_copy 0 InProcessAudio hello_entry ExecThrows).
  - constructor.
  - reflexivity.
Defined.

(** The freshness of node identifiers holds in every state the
    component reaches, and the body never changes across an event. *)
Lemma step_dom (ev : Event) (s : State) :
  dom_fresh s ->
  body (step ev s) = body s /\ next_node s <= next_node (step ev s).
Proof.
  intros Hfresh. destruct ev; unfold step; crunch;
    rewrite ?(remove_appended _ _ _ Hfresh); auto.
Qed.

Lemma run_dom_fresh (evs : list Event) (s : State) :
  dom_fresh s -> dom_fresh (run evs s).
Proof.
  revert s. induction evs as [|ev evs IH]; intros s H; [exact H|].
  rewrite run_cons. apply IH.
  destruct (step_dom ev s H) as [Hb Hn].
  unfold dom_fresh in *. rewrite Hb.
  eapply Forall_impl; [|exact H]. cbn. intros c Hc. lia.
Qed.

Corollary reachable_dom_fresh (evs : list Event) :
  dom_fresh (run evs initial).
Proof. apply run_dom_fresh. constructor. Qed.

(** ** The elapsed-time display *)

Arguments formatTime : simpl never.
Arguments padStart : simpl never.

Lemma split_at_sep (sep : N) (a b : jsstring) :
  ~ In sep a -> split sep (a ++ sep :: b) = a :: split sep b.
Proof.
  induction a as [|c a IH]; intros Hin; cbn.
  - now rewrite N.eqb_refl.
  - destruct (N.eqb_spec c sep) as [->|Hne]; [elim Hin; now left|].
    rewrite IH; [reflexivity|]. intros H. apply Hin. now right.
Qed.

Lemma split_no_sep (sep : N) (b : jsstring) :
  ~ In sep b -> split sep b = [b].
Proof.
  induction b as [|c b IH]; intros Hin; cbn; [reflexivity|].
  destruct (N.eqb_spec c sep) as [->|Hne]; [elim Hin; now left|].
  rewrite IH; [reflexivity|]. intros H. apply Hin. now right.
Qed.

Lemma units_back (str : string) :
  string_of_list_ascii (map ascii_of_N (code_units str)) = str.
Proof.
  unfold code_units. rewrite map_map.
  rewrite (map_ext _ (fun a => a)) by apply ascii_N_embedding.
  rewrite map_id. apply string_of_list_ascii_of_string.
Qed.

Lemma toString_code_units (n : Z) :
  toString n = code_units (NilZero.string_of_int (Z.to_int n)).
Proof.
  unfold toString, js.
  fold (code_units (NilZero.string_of_int (Z.to_int n))).
  apply utf16_of_utf8_ascii, numeral_ascii.
Qed.

(** The numeral of a natural number: digits only, at least one, and
    no sign. *)
Lemma toString_nonneg (n : Z) :
  (0 <= n)%Z ->
  exists u,
    u <> Decimal.Nil /\ Z.of_uint u = n /\
    toString n = code_units (NilEmpty.string_of_uint u).
Proof.
  intros Hn. rewrite toString_code_units.
  pose proof (DecimalZ.of_to n) as Hof.
  destruct n as [|p|p]; [| |lia]; cbn in *.
  - exists (Decimal.D0 Decimal.Nil). repeat split. discriminate.
  - exists (Pos.to_uint p). split; [apply DecimalPos.Unsigned.to_uint_nonnil|].
    split; [exact Hof|].
    destruct (Pos.to_uint p) eqn:E; try reflexivity.
    exfalso. exact (DecimalPos.Unsigned.to_uint_nonnil p E).
Qed.

Lemma digits_below_colon (u : Decimal.uint) :
  Forall (fun c => (c < colon)%N) (code_units (NilEmpty.string_of_uint u)).
Proof.
  unfold code_units. induction u; cbn; constructor; auto; reflexivity.
Qed.

Lemma of_uint_zeros (k : nat) (u : Decimal.uint) :
  Z.of_uint (zeros k u) = Z.of_uint u.
Proof. induction k; cbn; auto. Qed.

Lemma zeros_nonnil (k : nat) (u : Decimal.uint) :
  u <> Decimal.Nil -> zeros k u <> Decimal.Nil.
Proof. destruct k; cbn; [auto | discriminate]. Qed.

Lemma units_zeros (k : nat) (u : Decimal.uint) :
  List.repeat digit_zero k ++ code_units (NilEmpty.string_of_uint u)
  = code_units (NilEmpty.string_of_uint (zeros k u)).
Proof. induction k; cbn; [reflexivity|]. now rewrite IHk. Qed.

Lemma read_digits (u : Decimal.uint) :
  u <> Decimal.Nil ->
  read_decimal (code_units (NilEmpty.string_of_uint u)) = Some (Z.of_uint u).
Proof.
  intros Hu. unfold read_decimal. rewrite units_back.
  pose proof (NilEmpty.usu u) as Husu.
  unfold NilZero.int_of_string, NilZero.uint_of_string.
  destruct u; try congruence; cbn in *; rewrite Husu; reflexivity.
Qed.

(** Padding with zeros does not change the number read. *)
Lemma read_padStart (k : nat) (n : Z) :
  (0 <= n)%Z -> read_decimal (padStart k digit_zero (toString n)) = Some n.
Proof.
  intros Hn. destruct (toString_nonneg n Hn) as (u & Hu & Hof & ->).
  unfold padStart. rewrite units_zeros, read_digits, of_uint_zeros, Hof;
    [reflexivity | now apply zeros_nonnil].
Qed.

Lemma padStart_below_colon (k : nat) (n : Z) :
  (0 <= n)%Z ->
  Forall (fun c => (c < colon)%N) (padStart k digit_zero (toString n)).
Proof.
  intros Hn. destruct (toString_nonneg n Hn) as (u & _ & _ & ->).
  unfold padStart. rewrite units_zeros. apply digits_below_colon.
Qed.

Lemma below_colon_no_colon (s : jsstring) :
  Forall (fun c => (c < colon)%N) s -> ~ In colon s.
Proof.
  intros H Hin. rewrite Forall_forall in H. specialize (H _ Hin). lia.
Qed.

(** The display is the padded minutes, a colon, the padded seconds. *)
Lemma formatTime_split (seconds : Z) :
  (0 <= seconds)%Z ->
  split colon (formatTime seconds)
  = [padStart 2 digit_zero (toString (seconds / 60));
     padStart 2 digit_zero (toString (Z.rem seconds 60))].
Proof.
  intros Hs.
  assert (Hm : (0 <= seconds / 60)%Z) by (apply Z.div_pos; lia).
  assert (Hr : (0 <= Z.rem seconds 60 < 60)%Z)
    by (apply Z.rem_bound_pos; lia).
  unfold formatTime. cbn zeta. cbn [app].
  rewrite split_at_sep, split_no_sep; [reflexivity| |];
    apply below_colon_no_colon, padStart_below_colon; lia.
Qed.

(** X1. The display of a non-negative number of seconds is two numerals
    separated by one colon; read back, they are the whole minutes and
    the remaining seconds, which is below sixty. *)
Theorem formatTime_reads_back (seconds : Z) :
  (0 <= seconds)%Z ->
  exists mm ss mins secs,
    split colon (formatTime seconds) = [mm; ss] /\
    read_decimal mm = Some mins /\
    read_decimal ss = Some secs /\
    (0 <= secs < 60)%Z /\
    (60 * mins + secs = seconds)%Z.
Proof.
  intros Hs.
  assert (Hm : (0 <= seconds / 60)%Z) by (apply Z.div_pos; lia).
  assert (Hr : (0 <= Z.rem seconds 60 < 60)%Z)
    by (apply Z.rem_bound_pos; lia).
  exists (padStart 2 digit_zero (toString (seconds / 60))),
         (padStart 2 digit_zero (toString (Z.rem seconds 60))),
         (seconds / 60)%Z, (Z.rem seconds 60).
  split; [|split; [|split; [|split]]].
  - apply formatTime_split, Hs.
  - apply read_padStart, Hm.
  - apply read_padStart. lia.
  - exact Hr.
  - rewrite Z.rem_mod_nonneg by lia.
    pose proof (Z.div_mod seconds 60). lia.
Qed.

Lemma formatTime_reads_back_witness :
  (0 <= 75)%Z /\
  exists mm ss mins secs,
    split colon (formatTime 75) = [mm; ss] /\
    read_decimal mm = Some mins /\
    read_decimal ss = Some secs /\
    (0 <= secs < 60)%Z /\
    (60 * mins + secs = 75)%Z.
Proof.
  split; [lia|]. apply (formatTime_reads_back 75). lia.
Defined.

(** X2. Two different elapsed times are never displayed alike. *)
Theorem formatTime_inj (a b : Z) :
  (0 <= a)%Z -> (0 <= b)%Z -> formatTime a = formatTime b -> a = b.
Proof.
  intros Ha Hb Heq.
  pose proof (formatTime_split a Ha) as Sa.
  pose proof (formatTime_split b Hb) as Sb.
  rewrite Heq, Sb in Sa. injection Sa as Hm Hs.
  assert (Hqa : (0 <= a / 60)%Z) by (apply Z.div_pos; lia).
  assert (Hqb : (0 <= b / 60)%Z) by (apply Z.div_pos; lia).
  pose proof (Z.rem_bound_pos a 60) as Hra.
  pose proof (Z.rem_bound_pos b 60) as Hrb.
  assert (Eq : Some (b / 60)%Z = Some (a / 60)%Z).
  { rewrite <- (read_padStart 2 (b / 60) Hqb), Hm. now apply read_padStart. }
  assert (Er : Some (Z.rem b 60) = Some (Z.rem a 60)).
  { rewrite <- (read_padStart 2 (Z.rem b 60)), Hs by lia.
    apply read_padStart. lia. }
  injection Eq as Eq. injection Er as Er.
  rewrite !Z.rem_mod_nonneg in Er by lia.
  pose proof (Z.div_mod a 60). pose proof (Z.div_mod b 60). lia.
Qed.

Lemma formatTime_inj_witness :
  (0 <= 75)%Z /\ (0 <= 75)%Z /\ formatTime 75 = formatTime 75 /\ 75%Z = 75%Z.
Proof.
  assert (Ha : (0 <= 75)%Z) by lia.
  exact (conj Ha (conj Ha (conj eq_refl
           (formatTime_inj 75 75 Ha Ha eq_refl)))).
Defined.

Lemma two_digits (n : Z) :
  (0 <= n < 100)%Z ->
  List.length (padStart 2 digit_zero (toString n)) = 2.
Proof.
  intros Hn.
  assert (H : forallb
                (fun k => List.length
                            (padStart 2 digit_zero (toString (Z.of_nat k)))
                          =? 2)
                (seq 0 100) = true) by (vm_compute; reflexivity).
  rewrite forallb_forall in H.
  specialize (H (Z.to_nat n)). rewrite Z2Nat.id in H by lia.
  apply Nat.eqb_eq, H, in_seq. lia.
Qed.

(** X3. Below one hundred minutes the display has the shape [MM:SS]:
    five code units with the colon in the middle. *)
Theorem formatTime_shape (seconds : Z) :
  (0 <= seconds < 6000)%Z ->
  List.length (formatTime seconds) = 5 /\
  nth_error (formatTime seconds) 2 = Some colon.
Proof.
  intros Hs.
  assert (Hm : (0 <= seconds / 60 < 100)%Z).
  { split; [apply Z.div_pos; lia|]. apply Z.div_lt_upper_bound; lia. }
  assert (Hr : (0 <= Z.rem seconds 60 < 100)%Z).
  { pose proof (Z.rem_bound_pos seconds 60). lia. }
  pose proof (two_digits _ Hm) as Lm. pose proof (two_digits _ Hr) as Lr.
  unfold formatTime. cbn zeta.
  destruct (padStart 2 digit_zero (toString (seconds / 60)))
    as [|c1 [|c2 [|c3 rest]]]; try discriminate.
  cbn. rewrite Lr. auto.
Qed.

Lemma formatTime_shape_witness :
  (0 <= 75 < 6000)%Z /\
  List.length (formatTime 75) = 5 /\
  nth_error (formatTime 75) 2 = Some colon.
Proof.
  assert (H : (0 <= 75 < 6000)%Z) by lia.
  split; [exact H|]. exact (formatTime_shape 75 H).
Defined.

(** ** The texts of the history *)

Lemma trimStart_split (s : jsstring) :
  exists p, s = p ++ trimStart s.
Proof.
  induction s as [|c s [p IH]]; [exists []; reflexivity|].
  cbn. destruct (is_space c).
  - exists (c :: p). cbn. now rewrite <- IH.
  - exists []. reflexivity.
Qed.

Lemma trimStart_lead_ok (s : jsstring) : lead_ok (trimStart s).
Proof.
  induction s as [|c s IH]; cbn; [exact I|].
  destruct (is_space c) eqn:E; [exact IH | exact E].
Qed.

Lemma trimStart_id (s : jsstring) : lead_ok s -> trimStart s = s.
Proof. destruct s as [|c s]; cbn; [reflexivity|]. now intros ->. Qed.

(** What [trim] returns is a prefix of what [trimStart] returns. *)
Lemma trim_prefix (s : jsstring) :
  exists q, trimStart s = trim s ++ q.
Proof.
  unfold trim, trimEnd.
  destruct (trimStart_split (List.rev (trimStart s))) as [p Hp].
  exists (List.rev p).
  rewrite <- rev_app_distr, <- Hp. symmetry. apply rev_involutive.
Qed.

Lemma trim_lead_ok (s : jsstring) : lead_ok (trim s).
Proof.
  destruct (trim_prefix s) as [q Hq].
  pose proof (trimStart_lead_ok s) as H. rewrite Hq in H.
  destruct (trim s); [exact I | exact H].
Qed.

Lemma trim_trail_ok (s : jsstring) : lead_ok (List.rev (trim s)).
Proof.
  unfold trim, trimEnd. rewrite rev_involutive. apply trimStart_lead_ok.
Qed.

Lemma trim_idempotent (s : jsstring) : trim (trim s) = trim s.
Proof.
  unfold trim at 1. unfold trimEnd.
  rewrite (trimStart_id (trim s)) by apply trim_lead_ok.
  rewrite (trimStart_id (List.rev (trim s))) by apply trim_trail_ok.
  apply rev_involutive.
Qed.

(** A step changes the history only by putting one entry in front,
    whose text is trimmed and not empty. *)
Lemma step_history (ev : Event) (s : State) :
  transcriptions (step ev s) = transcriptions s \/
  exists e T,
    text e = trim T /\ trim T <> [] /\
    transcriptions (step ev s) = e :: transcriptions s.
Proof.
  destruct ev; unfold step; try (crunch; auto; fail).
  destruct (nth_error (pending s) i) as [[| | |]|] eqn:Hp; auto.
  destruct o as [[T|]|]; try (crunch; auto; fail).
  unfold_handlers. cbn [option_map]. rewrite or_else_nil.
  destruct (trim T) eqn:HT; cbn; auto.
  right. exists (mkTranscription (toString now) (trim T) date), T.
  rewrite HT. cbn. repeat split. discriminate.
Qed.

(** X4. In every run, every entry of the history has a text that is not
    empty and that neither begins nor ends with white space (trimming it
    again changes nothing). *)
Theorem history_texts_trimmed (evs : list Event) (e : Transcription) :
  In e (transcriptions (run evs initial)) ->
  text e <> [] /\
  trim (text e) = text e /\
  lead_ok (text e) /\ lead_ok (List.rev (text e)).
Proof.
  assert (H : forall evs s,
             (forall e, In e (transcriptions s) ->
                        exists T, text e = trim T /\ trim T <> []) ->
             forall e, In e (transcriptions (run evs s)) ->
                       exists T, text e = trim T /\ trim T <> []).
  { clear. induction evs as [|ev evs IH]; intros s Hs; [exact Hs|].
    rewrite run_cons. apply IH. intros e He.
    destruct (step_history ev s) as [E|(e0 & T & Ht & Hne & E)];
      rewrite E in He; [now apply Hs|].
    destruct He as [<-|He]; [exists T; auto | now apply Hs]. }
  intros He.
  destruct (H evs initial (fun e0 (F : In e0 []) => match F with end) e He)
    as (T & -> & Hne).
  repeat split.
  - exact Hne.
  - apply trim_idempotent.
  - apply trim_lead_ok.
  - apply trim_trail_ok.
Qed.

Lemma history_texts_trimmed_witness :
  let evs :=
    session_until_request
    ++ [GenerateSettled 0 (Responded (Some (js "  Hello world. "))) 1700 1701]
  in
  In hello_entry (transcriptions (run evs initial)) /\
  text hello_entry <> [] /\
  trim (text hello_entry) = text hello_entry /\
  lead_ok (text hello_entry) /\ lead_ok (List.rev (text hello_entry)).
Proof.
  assert (H : In hello_entry
                (transcriptions
                   (run (session_until_request
                         ++ [GenerateSettled 0
                               (Responded (Some (js "  Hello world. ")))
                               1700 1701]) initial)))
    by (left; reflexivity).
  split; [exact H|].
  exact (history_texts_trimmed _ hello_entry H).
Defined.

(** X5. The history only grows, and only at the front: whatever happens,
    the entries there were are still there, unchanged and in the same
    order, behind the new ones. *)
Theorem history_append_only (evs : list Event) (s : State) :
  exists newer,
    transcriptions (run evs s) = newer ++ transcriptions s.
Proof.
  revert s. induction evs as [|ev evs IH]; intros s; [exists []; reflexivity|].
  rewrite run_cons. destruct (IH (step ev s)) as [newer Hn].
  destruct (step_history ev s) as [E|(e0 & T & _ & _ & E)]; rewrite E in Hn.
  - exists newer. exact Hn.
  - exists (newer ++ [e0]). rewrite Hn, <- app_assoc. reflexivity.
Qed.

(** ** The error banner *)

Lemma step_error (ev : Event) (s : State) :
  error (step ev s) = error s \/ In (error (step ev s)) shown_errors.
Proof.
  destruct ev; unfold step; crunch; cbn; auto.
Qed.

(** X6. In every run the error banner is empty or shows the microphone
    message or the could-not-transcribe message: the service-failure
    message of [processAudio] is never shown. *)
Theorem error_is_one_of_two (evs : list Event) :
  In (error (run evs initial)) shown_errors /\
  error (run evs initial) <> Some msg_processing_failed.
Proof.
  assert (H : forall evs s, In (error s) shown_errors ->
                            In (error (run evs s)) shown_errors).
  { clear. induction evs as [|ev evs IH]; intros s Hs; [exact Hs|].
    rewrite run_cons. apply IH.
    destruct (step_error ev s) as [E|E]; [now rewrite E | exact E]. }
  assert (Hin : In (error (run evs initial)) shown_errors)
    by (apply H; left; reflexivity).
  split; [exact Hin|].
  intros E. rewrite E in Hin.
  destruct Hin as [F|[F|[F|[]]]]; discriminate.
Qed.

(** ** Releasing the microphone *)

Lemma nth_error_update_nth {A} (f : A -> A) (j r : nat) (l : list A) :
  nth_error (update_nth j f l) r
  = if r =? j then option_map f (nth_error l r) else nth_error l r.
Proof.
  revert j r. induction l as [|x l IH]; intros j r.
  - destruct r, j; try reflexivity. cbn. now destruct (r =? j).
  - destruct j, r; cbn; auto.
Qed.

Section Released.

Variable r : nat.

Let gone (l : list Recorder) : Prop :=
  exists rc, nth_error l r = Some rc /\ tracks_live rc = false.

Lemma gone_update_state (j : nat) (st : RecorderState) (l : list Recorder) :
  gone l -> gone (update_nth j (set_rec_state st) l).
Proof.
  intros (rc & Hrc & Hl). unfold gone. rewrite nth_error_update_nth, Hrc.
  destruct (r =? j); cbn; eauto.
Qed.

Lemma gone_update_tracks (j : nat) (l : list Recorder) :
  gone l -> gone (update_nth j (set_tracks_live false) l).
Proof.
  intros (rc & Hrc & Hl). unfold gone. rewrite nth_error_update_nth, Hrc.
  destruct (r =? j); cbn; eauto.
Qed.

Lemma gone_app (l l' : list Recorder) : gone l -> gone (l ++ l').
Proof.
  intros (rc & Hrc & Hl). exists rc. split; [|exact Hl].
  rewrite nth_error_app1; [exact Hrc|]. apply nth_error_Some. congruence.
Qed.

(** No event makes a released stream live again. *)
Lemma step_released (ev : Event) (s : State) :
  released s r -> released (step ev s) r.
Proof.
  unfold released. fold (gone (recorders s)).
  fold (gone (recorders (step ev s))). intros H.
  destruct ev; unfold step; crunch;
    auto using gone_update_state, gone_update_tracks, gone_app.
Qed.

End Released.

(** X7. Once the stop event of a recorder has been handled its stream is
    released, and it stays released whatever comes after, also when the
    transcription fails or never answers. *)
Theorem stop_releases_device
    (s : State) (r : nat) (rc : Recorder) (evs : list Event) :
  nth_error (recorders s) r = Some rc ->
  released (run evs (step (Stopped r) s)) r.
Proof.
  intros Hrc.
  assert (H0 : released (step (Stopped r) s) r).
  { unfold released, step. rewrite Hrc. unfold_handlers. cbn.
    rewrite nth_error_update_nth, Nat.eqb_refl, Hrc. cbn. eauto. }
  revert H0. generalize (step (Stopped r) s) as s'.
  induction evs as [|ev evs IH]; intros s' H; [exact H|].
  rewrite run_cons. apply IH, step_released, H.
Qed.

Lemma stop_releases_device_witness :
  let s := run (firstn 4 session_until_request) initial in
  nth_error (recorders s) 0
  = Some (mkRecorder webm_opus (js "Português") Inactive true) /\
  released (run [LoadEnd 0 (js "data:audio/webm;base64,AQI=");
                 GenerateSettled 0 Rejected 1700 1701]
                (step (Stopped 0) s)) 0.
Proof.
  split; [reflexivity|].
  exact (stop_releases_device
           (run (firstn 4 session_until_request) initial) 0
           (mkRecorder webm_opus (js "Português") Inactive true)
           [LoadEnd 0 (js "data:audio/webm;base64,AQI=");
            GenerateSettled 0 Rejected 1700 1701]
           eq_refl).
Defined.

(** ** The elapsed-time counter *)





Lemma existsb_filter_out (t : nat) (l : list nat) :
  existsb (Nat.eqb t) (filter (fun t' => negb (t' =? t)) l) = false.
Proof.
  induction l as [|x l IH]; cbn; [reflexivity|].
  destruct (Nat.eqb_spec x t) as [->|Hne]; cbn; [exact IH|].
  rewrite IH. destruct (Nat.eqb_spec t x); [congruence | reflexivity].
Qed.





(** ** Keys that are not for the recorder *)

Lemma str_eqb_eq (a b : jsstring) : str_eqb a b = true <-> a = b.
Proof.
  revert b. induction a as [|x a IH]; intros [|y b]; cbn;
    try (split; [discriminate | discriminate]); [tauto|].
  rewrite andb_true_iff, N.eqb_eq, IH. split.
  - intros [-> ->]. reflexivity.
  - intros H. injection H as -> ->. auto.
Qed.

(** X9. A key pressed inside an input or a text area, and any key other
    than the space bar, changes nothing at all: no default is
    prevented, no recording starts or stops. *)
Theorem other_keys_ignored (s : State) (target : KeyTarget) (code : jsstring) :
  target <> Elsewhere \/ code <> js "Space" ->
  step (KeyDown target code) s = s.
Proof.
  intros H. unfold step, handleKeyDown.
  destruct target; try reflexivity.
  destruct (str_eqb code (js "Space")) eqn:E; [|reflexivity].
  apply str_eqb_eq in E. destruct H as [H|H]; congruence.
Qed.

Lemma other_keys_ignored_witness :
  (OnTextArea <> Elsewhere \/ space <> js "Space") /\
  step (KeyDown OnTextArea space) awaiting_copy = awaiting_copy.
Proof.
  assert (H : OnTextArea <> Elsewhere \/ space <> js "Space")
    by (left; discriminate).
  split; [exact H|].
  exact (other_keys_ignored awaiting_copy OnTextArea space H).
Defined.

(** ** What is sent to the service *)

Lemma second_of_split (sep : N) (a b : jsstring) :
  ~ In sep a -> ~ In sep b ->
  nth_error (split sep (a ++ sep :: b)) 1 = Some b.
Proof.
  intros Ha Hb. now rewrite split_at_sep, split_no_sep.
Qed.

Lemma second_of_split_none (sep : N) (a : jsstring) :
  ~ In sep a -> nth_error (split sep a) 1 = None.
Proof. intros Ha. now rewrite split_no_sep. Qed.

(** X10. The audio data of the request is what follows the comma of the
    data URL the file reader returns; a reader result without a comma
    gives a request without data. *)
Theorem request_data_after_comma
    (s : State) (i : nat) (audioBlob : Blob) (mimeType lang : jsstring)
    (header data : jsstring) :
  nth_error (pending s) i = Some (AwaitLoadEnd audioBlob mimeType lang) ->
  ~ In comma header ->
  ~ In comma data ->
  (exists req,
     log (step (LoadEnd i (header ++ comma :: data)) s)
     = log s ++ [GenerateContent req] /\
     inlineData_data req = Some data) /\
  (exists req,
     log (step (LoadEnd i header) s) = log s ++ [GenerateContent req] /\
     inlineData_data req = None).
Proof.
  intros Hp Hh Hd. unfold step. rewrite Hp. split; eexists; split;
    try reflexivity; cbn.
  - now apply second_of_split.
  - now apply second_of_split_none.
Qed.

Lemma not_in_by_eqb (sep : N) (l : jsstring) :
  forallb (fun c => negb (c =? sep)%N) l = true -> ~ In sep l.
Proof.
  intros H Hin. rewrite forallb_forall in H. specialize (H _ Hin).
  now rewrite N.eqb_refl in H.
Qed.

Lemma request_data_after_comma_witness :
  let s := run (firstn 5 session_until_request) initial in
  let header := js "data:audio/webm;codecs=opus;base64" in
  let data := js "AQI=" in
  nth_error (pending s) 0
  = Some (AwaitLoadEnd (chunk [x01; x02]%byte) webm_opus (js "Português")) /\
  ~ In comma header /\
  ~ In comma data /\
  (exists req,
     log (step (LoadEnd 0 (header ++ comma :: data)) s)
     = log s ++ [GenerateContent req] /\
     inlineData_data req = Some data) /\
  (exists req,
     log (step (LoadEnd 0 header) s) = log s ++ [GenerateContent req] /\
     inlineData_data req = None).
Proof.
  assert (Hh : ~ In comma (js "data:audio/webm;codecs=opus;base64"))
    by (apply not_in_by_eqb; reflexivity).
  assert (Hd : ~ In comma (js "AQI="))
    by (apply not_in_by_eqb; reflexivity).
  split; [reflexivity|]. split; [exact Hh|]. split; [exact Hd|].
  exact (request_data_after_comma
           (run (firstn 5 session_until_request) initial) 0
           (chunk [x01; x02]%byte) webm_opus (js "Português")
           (js "data:audio/webm;codecs=opus;base64") (js "AQI=")
           eq_refl Hh Hd).
Defined.

Lemma nth_error_app_some {A} (l l' : list A) (i : nat) (x : A) :
  nth_error l i = Some x -> nth_error (l ++ l') i = Some x.
Proof.
  intros H. rewrite nth_error_app1; [exact H|].
  apply nth_error_Some. congruence.
Qed.

(** A recorder keeps the content type and the language it was created
    with, whatever happens. *)
Lemma step_keeps_key (ev : Event) (s : State) (r : nat)
    (k : jsstring * jsstring) :
  nth_error (map rec_key (recorders s)) r = Some k ->
  nth_error (map rec_key (recorders (step ev s))) r = Some k.
Proof.
  intros H. destruct ev; unfold step.
  all: crunch; rewrite ?map_update_nth by reflexivity;
    rewrite ?map_app; auto using nth_error_app_some.
Qed.

Lemma run_keeps_key (evs : list Event) (s : State) (r : nat)
    (k : jsstring * jsstring) :
  nth_error (map rec_key (recorders s)) r = Some k ->
  nth_error (map rec_key (recorders (run evs s))) r = Some k.
Proof.
  revert s. induction evs as [|ev evs IH]; intros s H; [exact H|].
  rewrite run_cons. apply IH, step_keeps_key, H.
Qed.

(** An event that settles nothing takes no entry out of the pending
    list and creates no recorder. *)
Lemma step_unsettled (ev : Event) (s : State) :
  settles ev = false ->
  (exists l, pending (step ev s) = pending s ++ l) /\
  List.length (recorders (step ev s)) = List.length (recorders s).
Proof.
  intros H. destruct ev; try discriminate; unfold step.
  all: crunch; rewrite ?update_nth_length; split; try reflexivity.
  all: first [ exists []; now rewrite app_nil_r | eexists; reflexivity ].
Qed.

Lemma run_unsettled (evs : list Event) :
  forall s,
    forallb (fun ev => negb (settles ev)) evs = true ->
    (exists l, pending (run evs s) = pending s ++ l) /\
    List.length (recorders (run evs s)) = List.length (recorders s).
Proof.
  induction evs as [|ev evs IH]; intros s H.
  - split; [exists []; now rewrite app_nil_r | reflexivity].
  - cbn in H. apply andb_true_iff in H. destruct H as [Hev Hevs].
    apply negb_true_iff in Hev.
    destruct (step_unsettled ev s Hev) as [[l1 P1] R1].
    destruct (IH (step ev s) Hevs) as [[l2 P2] R2].
    rewrite run_cons. split; [|congruence].
    exists (l1 ++ l2). rewrite P2, P1, app_assoc. reflexivity.
Qed.

(** X11. The language named in the request is the one that was selected
    when the start command was given: whatever the user does between
    the start command and the answer of the device, where the language
    buttons are enabled, and whatever happens between that answer and
    the stop of the recorder, the prompt names the language of the
    start command. *)
Theorem language_fixed_at_start
    (s0 : State) (start : Event) (mimeType result : jsstring)
    (before after : list Event) :
  start_command start ->
  isRecording s0 = false ->
  isProcessing s0 = false ->
  forallb (fun ev => negb (settles ev)) before = true ->
  let n := List.length (pending s0) in
  let r := List.length (recorders s0) in
  let s1 :=
    run (start :: before ++ MediaSettled n (Granted mimeType) :: after) s0 in
  let s2 := step (Stopped r) s1 in
  let s3 := step (LoadEnd (List.length (pending s1)) result) s2 in
  exists req,
    log s3 = log s2 ++ [GenerateContent req] /\
    prompt_text req = prompt (targetLanguage s0).
Proof.
  intros Hstart Hr Hp Hbefore n r s1 s2 s3.
  destruct (start_from_idle s0 start Hstart Hr Hp) as (l & _ & E).
  set (lang := targetLanguage s0) in *.
  set (sa := step start s0) in *.
  destruct (run_unsettled before sa Hbefore) as [[l' Pb] Rb].
  set (sb := run before sa) in *.
  assert (Hpend : nth_error (pending sb) n = Some (AwaitGetUserMedia lang)).
  { rewrite Pb, E. cbn [pending with_log with_pending].
    rewrite <- app_assoc. apply nth_error_middle. }
  assert (Hrb : List.length (recorders sb) = r)
    by (rewrite Rb, E; reflexivity).
  destruct (granted_from_pending sb n lang mimeType Hpend) as (R1 & _).
  cbv zeta in R1.
  set (sc := step (MediaSettled n (Granted mimeType)) sb) in *.
  assert (Hs1 : s1 = run after sc).
  { subst s1 sc sb sa. rewrite run_cons, run_app, run_cons. reflexivity. }
  assert (Hkey : nth_error (map rec_key (recorders s1)) r
                 = Some (mimeType, lang)).
  { rewrite Hs1. apply run_keeps_key. rewrite R1, map_app.
    rewrite <- Hrb, <- (length_map rec_key). apply nth_error_snoc. }
  rewrite nth_error_map in Hkey.
  destruct (nth_error (recorders s1) r) as [rc|] eqn:Hrc; [|discriminate].
  cbn in Hkey. unfold rec_key in Hkey. injection Hkey as Hm Hl.
  pose proof (stopped_pending s1 r rc Hrc) as Hstop. fold s2 in Hstop.
  rewrite Hm, Hl in Hstop.
  subst s3. unfold step at 1. rewrite Hstop, nth_error_snoc.
  eexists. split; reflexivity.
Qed.

Lemma language_fixed_at_start_witness :
  let before := [ClickLanguage 1; Tick 0] in
  let after := [KeyDown Elsewhere space; ClickLanguage 2;
                DataAvailable 0 (chunk [x01; x02]%byte)] in
  let s1 :=
    run (ClickRecord :: before ++ MediaSettled 0 (Granted webm_opus) :: after)
        initial in
  let s2 := step (Stopped 0) s1 in
  let s3 := step (LoadEnd (List.length (pending s1)) (js "data:,")) s2 in
  forallb (fun ev => negb (settles ev)) before = true /\
  targetLanguage (run (ClickRecord :: before) initial) = js "Inglês" /\
  exists req,
    log s3 = log s2 ++ [GenerateContent req] /\
    prompt_text req = prompt (js "Português").
Proof.
  split; [reflexivity|]. split; [reflexivity|].
  exact (language_fixed_at_start initial ClickRecord webm_opus (js "data:,")
           [ClickLanguage 1; Tick 0]
           [KeyDown Elsewhere space; ClickLanguage 2;
            DataAvailable 0 (chunk [x01; x02]%byte)]
           (or_intror eq_refl) eq_refl eq_refl eq_refl).
Defined.

(** ** The copied marker *)

(** X12. The marker is set to the copied entry, and a timeout started,
    when the clipboard write succeeds and also when the legacy copy
    returns, even with [false]; only a legacy copy that throws leaves
    the marker and the timeouts as they were. *)
Theorem copy_sets_marker
    (s : State) (i : nat) (site : CopySite) (t : Transcription)
    (written : bool) (exec : ExecOutcome) :
  nth_error (pending s) i = Some (AwaitWriteText site t) ->
  let s' := step (WriteTextSettled i written exec) s in
  (written = true \/ exec <> ExecThrows ->
   copiedId s' = Some (id t) /\ timeouts s' = S (timeouts s)) /\
  (written = false /\ exec = ExecThrows ->
   copiedId s' = copiedId s /\ timeouts s' = timeouts s).
Proof.
  intros Hp s'. subst s'. unfold step. rewrite Hp.
  destruct site, written, exec; unfold_handlers; cbn;
    (split; [intros [H|H] | intros [H1 H2]]); auto; congruence.
Qed.

Lemma copy_sets_marker_witness :
  let s' := step (WriteTextSettled 0 false ExecFalse) awaiting_copy in
  nth_error (pending awaiting_copy) 0
  = Some (AwaitWriteText InProcessAudio hello_entry) /\
  (false = true \/ ExecFalse <> ExecThrows) /\
  copiedId s' = Some (id hello_entry) /\
  timeouts s' = S (timeouts awaiting_copy).
Proof.
  assert (H : false = true \/ ExecFalse <> ExecThrows)
    by (right; discriminate).
  split; [reflexivity|]. split; [exact H|].
  exact (proj1 (copy_sets_marker awaiting_copy 0 InProcessAudio hello_entry
                  false ExecFalse eq_refl) H).
Defined.

(** X13. However the clipboard write after a transcription settles, and
    whatever the legacy copy does, processing ends: [isProcessing]
    becomes false, the error banner and the history are untouched.  The
    copy button of an entry leaves [isProcessing] alone. *)
Theorem processing_ends_after_copy
    (s : State) (i : nat) (site : CopySite) (t : Transcription)
    (written : bool) (exec : ExecOutcome) :
  nth_error (pending s) i = Some (AwaitWriteText site t) ->
  let s' := step (WriteTextSettled i written exec) s in
  isProcessing s'
  = match site with
    | InProcessAudio => false
    | InCopyButton => isProcessing s
    end /\
  error s' = error s /\
  transcriptions s' = transcriptions s /\
  pending s' = remove_nth i (pending s).
Proof.
  intros Hp s'. subst s'. unfold step. rewrite Hp.
  destruct site, written, exec; unfold_handlers; cbn; auto.
Qed.

Lemma processing_ends_after_copy_witness :
  let s' := step (WriteTextSettled 0 false ExecThrows) awaiting_copy in
  nth_error (pending awaiting_copy) 0
  = Some (AwaitWriteText InProcessAudio hello_entry) /\
  isProcessing s' = false /\
  error s' = error awaiting_copy /\
  transcriptions s' = transcriptions awaiting_copy /\
  pending s' = remove_nth 0 (pending awaiting_copy).
Proof.
  split; [reflexivity|].
  exact (processing_ends_after_copy awaiting_copy 0 InProcessAudio
           hello_entry false ExecThrows eq_refl).
Defined.

(** X14. Every timeout clears the marker, whichever entry it shows: when
    the timeout of an earlier copy is still pending, it removes the
    marker of a later copy while that copy's own timeout is yet to
    come. *)
Theorem marker_cleared_by_earlier_timeout
    (s : State) (i : nat) (site : CopySite) (t : Transcription) :
  nth_error (pending s) i = Some (AwaitWriteText site t) ->
  0 < timeouts s ->
  let s1 := step (WriteTextSettled i true ExecTrue) s in
  let s2 := step TimeoutFired s1 in
  copiedId s1 = Some (id t) /\
  copiedId s2 = None /\
  timeouts s2 = timeouts s.
Proof.
  intros Hp Ht s1 s2.
  assert (H1 : copiedId s1 = Some (id t) /\ timeouts s1 = S (timeouts s)).
  { subst s1. unfold step. rewrite Hp.
    destruct site; unfold_handlers; cbn; auto. }
  destruct H1 as [Hc Hn]. split; [exact Hc|].
  subst s2. unfold step. rewrite Hn. cbn. auto.
Qed.

Lemma marker_cleared_by_earlier_timeout_witness :
  let s := step (ClickCopy 0)
             (step (WriteTextSettled 0 true ExecTrue) awaiting_copy) in
  let s1 := step (WriteTextSettled 0 true ExecTrue) s in
  let s2 := step TimeoutFired s1 in
  nth_error (pending s) 0 = Some (AwaitWriteText InCopyButton hello_entry) /\
  0 < timeouts s /\
  copiedId s1 = Some (id hello_entry) /\
  copiedId s2 = None /\
  timeouts s2 = timeouts s.
Proof.
  split; [reflexivity|].
  assert (Ht : 0 < timeouts
                     (step (ClickCopy 0)
                        (step (WriteTextSettled 0 true ExecTrue)
                           awaiting_copy))) by (vm_compute; lia).
  split; [exact Ht|].
  exact (marker_cleared_by_earlier_timeout
           (step (ClickCopy 0)
              (step (WriteTextSettled 0 true ExecTrue) awaiting_copy))
           0 InCopyButton hello_entry eq_refl Ht).
Defined.

(** ** A whole session *)

(** Symbolic execution of a run from a state given field by field: each
    step is evaluated on its own and the state put back in record
    form. *)
Ltac list_facts :=
  rewrite ?nth_error_snoc, ?remove_nth_snoc, ?update_nth_snoc, ?str_eqb_space,
    ?nth_error_update_nth, ?Nat.eqb_refl.

Ltac norm_state :=
  cbv beta iota delta
    [with_isRecording with_isProcessing with_error with_transcriptions
     with_copiedId with_recordingTime with_targetLanguage
     with_mediaRecorderRef with_audioChunksRef with_timerRef with_recorders
     with_timers with_timeouts with_dom with_pending with_log
     isRecording isProcessing error transcriptions copiedId recordingTime
     targetLanguage mediaRecorderRef audioChunksRef timerRef recorders
     intervals next_timer timeouts body next_node pending log].

Ltac eval_step tac :=
  unfold step; cbn; list_facts; tac; cbn; unfold_handlers; cbn; list_facts;
  tac; cbn; norm_state.

Ltac sym_step H tac :=
  rewrite run_cons in H;
  match type of H with
  | context [run _ (step ?ev ?st)] =>
      let E := fresh "E" in
      let x := fresh "st" in
      evar (x : State);
      assert (E : step ev st = x) by (eval_step tac; subst x; reflexivity);
      rewrite E in H; clear E; subst x
  end.

(** X15. A session played from Idle to its end: start command, device
    granted, stop command, the recorded chunk, the stop event, the file
    read, a transcription with usable text, the clipboard write settled
    in any way.  The controller is Idle again with no error, nothing of
    the session is left pending, the history has one more entry in
    front, the stream is released, the timer of the session no longer
    runs and no more session is in flight than before. *)
Theorem session_round_trip
    (s0 : State) (start stop : Event) (mimeType result T : jsstring)
    (data : Blob) (now date : Z) (written : bool) (exec : ExecOutcome) :
  start_command start ->
  start_command stop ->
  isRecording s0 = false ->
  isProcessing s0 = false ->
  trim T <> [] ->
  let n := List.length (pending s0) in
  let r := List.length (recorders s0) in
  let s := run [ start; MediaSettled n (Granted mimeType); stop;
                 DataAvailable r data; Stopped r; LoadEnd n result;
                 GenerateSettled n (Responded (Some T)) now date;
                 WriteTextSettled n written exec ] s0 in
  isRecording s = false /\
  isProcessing s = false /\
  error s = None /\
  pending s = pending s0 /\
  (exists e, text e = trim T /\ transcriptions s = e :: transcriptions s0) /\
  released s r /\
  sessions_in_flight s = sessions_in_flight s0 /\
  existsb (Nat.eqb (next_timer s0)) (intervals s) = false.
Proof.
  intros Hstart Hstop Hr Hp HT n r s.
  destruct s0 as [isRec isProc err hist copied time lang0 mref chunks tref
                  recs ints nt touts bd nn pend lg].
  cbn in Hr, Hp, n, r. subst isRec isProc n r.
  match goal with s := run ?l ?st |- _ =>
    assert (Es : s = run l st) by reflexivity; clearbody s end.
  destruct (trim T) as [|c0 tl] eqn:Htrim; [congruence|].
  destruct data as [[|b bytes] ty], written, exec.
  all: destruct Hstart as [-> | ->], Hstop as [-> | ->].
  all: do 6 sym_step Es idtac.
  all: sym_step Es ltac:(rewrite ?Htrim).
  all: sym_step Es idtac.
  all: cbn [run fold_left] in Es; subst s.
  all: unfold released, sessions_in_flight; norm_state.
  all: repeat split; try apply existsb_filter_out.
  all: try (rewrite !filter_app, !length_app; cbn; lia).
  all: match goal with
       | |- exists e, text e = _ /\ _ =>
           eexists; split; [|reflexivity]; reflexivity
       | |- _ => eexists; split; [apply nth_error_snoc | reflexivity]
       end.
Qed.

Lemma session_round_trip_witness :
  let n := List.length (pending initial) in
  let r := List.length (recorders initial) in
  let s := run [ ClickRecord; MediaSettled n (Granted webm_opus); ClickRecord;
                 DataAvailable r (chunk [x01; x02]%byte); Stopped r;
                 LoadEnd n (js "data:audio/webm;base64,AQI=");
                 GenerateSettled n (Responded (Some (js " Hello world. ")))
                   1700 1701;
                 WriteTextSettled n false ExecThrows ] initial in
  trim (js " Hello world. ") <> [] /\
  isRecording s = false /\
  isProcessing s = false /\
  error s = None /\
  pending s = pending initial /\
  (exists e, text e = trim (js " Hello world. ") /\
             transcriptions s = e :: transcriptions initial) /\
  released s r /\
  sessions_in_flight s = sessions_in_flight initial /\
  existsb (Nat.eqb (next_timer initial)) (intervals s) = false.
Proof.
  assert (HT : trim (js " Hello world. ") <> []) by discriminate.
  split; [exact HT|].
  exact (session_round_trip initial ClickRecord ClickRecord webm_opus
           (js "data:audio/webm;base64,AQI=") (js " Hello world. ")
           (chunk [x01; x02]%byte) 1700 1701 false ExecThrows
           (or_intror eq_refl) (or_intror eq_refl) eq_refl eq_refl HT).
Defined.

(** ** The stop command *)

Lemma step_refs_set (ev : Event) (s : State) :
  refs_set s -> refs_set (step ev s).
Proof.
  unfold refs_set. intros H.
  destruct (isRecording s) eqn:Hrec0.
  1: destruct (H eq_refl) as (r0 & t0 & Hr0 & Hlt & Ht0).
  all: clear H; destruct ev; unfold step; unfold_handlers; cbn;
    rewrite ?Hrec0, ?Hr0, ?Ht0; cbn;
    repeat (case_split; cbn; rewrite ?Hrec0, ?Hr0, ?Ht0; cbn);
    intros Hrec; try discriminate; try congruence.
  all: first
    [ exists r0, t0; rewrite ?update_nth_length, ?length_app;
      repeat split; auto; lia
    | eexists; eexists; repeat split;
      rewrite ?update_nth_length, ?length_app; cbn; lia ].
Qed.

Lemma run_refs_set (evs : list Event) (s : State) :
  refs_set s -> refs_set (run evs s).
Proof.
  revert s. induction evs as [|ev evs IH]; intros s H; [exact H|].
  rewrite run_cons. apply IH, step_refs_set, H.
Qed.

(** X16. In every state the component reaches while it shows Recording,
    the refs hold a recorder that exists and a timer, so [stopRecording],
    whichever control calls it, does stop: the recorder the ref points
    at is inactive afterwards, the timer the ref points at is cleared,
    and the controller no longer shows Recording. *)
Theorem stop_finds_recorder (evs : list Event) :
  let s := run evs initial in
  isRecording s = true ->
  exists r t rc s',
    mediaRecorderRef s = Some r /\
    timerRef s = Some t /\
    nth_error (recorders s) r = Some rc /\
    stopRecording s = (Ok tt, s') /\
    isRecording s' = false /\
    nth_error (recorders s') r = Some (set_rec_state Inactive rc) /\
    log s' = log s ++ [RecorderStop r; ClearInterval t].
Proof.
  intros s Hrec.
  assert (Hinv : refs_set s)
    by (apply run_refs_set; intros F; discriminate).
  destruct (Hinv Hrec) as (r & t & Hr & Hlt & Ht).
  apply nth_error_Some in Hlt.
  destruct (nth_error (recorders s) r) as [rc|] eqn:Hrc; [|congruence].
  exists r, t, rc. eexists.
  split; [exact Hr|]. split; [exact Ht|]. split; [exact Hrc|].
  unfold_handlers. rewrite Hr, Hrec. cbn. rewrite Ht. cbn.
  split; [reflexivity|]. split; [reflexivity|].
  split.
  - cbn. rewrite nth_error_update_nth, Nat.eqb_refl, Hrc. reflexivity.
  - cbn. rewrite <- app_assoc. reflexivity.
Qed.

Lemma stop_finds_recorder_witness :
  let s := run (firstn 2 session_until_request) initial in
  isRecording s = true /\
  exists r t rc s',
    mediaRecorderRef s = Some r /\
    timerRef s = Some t /\
    nth_error (recorders s) r = Some rc /\
    stopRecording s = (Ok tt, s') /\
    isRecording s' = false /\
    nth_error (recorders s') r = Some (set_rec_state Inactive rc) /\
    log s' = log s ++ [RecorderStop r; ClearInterval t].
Proof.
  split; [reflexivity|].
  exact (stop_finds_recorder (firstn 2 session_until_request) eq_refl).
Defined.

(** X17. Between the stop command and the stop event of the recorder the
    controller shows neither Recording nor Processing, and a start
    command given then is accepted: the device is asked for again while
    the stopped recording has not been handed to [processAudio] yet. *)
Theorem start_accepted_before_stop_event
    (s : State) (r : nat) (stop start : Event) :
  isRecording s = true ->
  isProcessing s = false ->
  mediaRecorderRef s = Some r ->
  start_command stop ->
  start_command start ->
  let s1 := step stop s in
  let s2 := step start s1 in
  isRecording s1 = false /\
  isProcessing s1 = false /\
  pending s1 = pending s /\
  pending s2 = pending s ++ [AwaitGetUserMedia (targetLanguage s)] /\
  List.length (filter is_GetUserMedia (log s2))
  = S (List.length (filter is_GetUserMedia (log s))).
Proof.
  intros Hrec Hproc Href Hstop Hstart s1 s2.
  assert (H1 : isRecording s1 = false /\ isProcessing s1 = false /\
               pending s1 = pending s /\
               targetLanguage s1 = targetLanguage s /\
               filter is_GetUserMedia (log s1)
               = filter is_GetUserMedia (log s)).
  { subst s1. destruct Hstop as [-> | ->]; unfold step; unfold_handlers;
      rewrite ?str_eqb_space; cbn; rewrite ?Hrec, ?Hproc; cbn;
      rewrite ?Hrec, ?Href; cbn; destruct (timerRef s); cbn;
      rewrite ?filter_app; cbn; rewrite ?app_nil_r; auto. }
  destruct H1 as (Hr1 & Hp1 & Hpend1 & Hlang1 & Hlog1).
  destruct (start_from_idle s1 start Hstart Hr1 Hp1) as (l & Hl & E).
  fold s2 in E. rewrite E. cbn.
  rewrite Hpend1, Hlang1, !filter_app, Hl, Hlog1, length_app. cbn.
  repeat split; auto. lia.
Qed.

Lemma start_accepted_before_stop_event_witness :
  let s := run (firstn 2 session_until_request) initial in
  let s1 := step ClickRecord s in
  let s2 := step ClickRecord s1 in
  isRecording s = true /\
  isProcessing s = false /\
  mediaRecorderRef s = Some 0 /\
  isRecording s1 = false /\
  isProcessing s1 = false /\
  pending s1 = pending s /\
  pending s2 = pending s ++ [AwaitGetUserMedia (targetLanguage s)] /\
  List.length (filter is_GetUserMedia (log s2))
  = S (List.length (filter is_GetUserMedia (log s))).
Proof.
  split; [reflexivity|]. split; [reflexivity|]. split; [reflexivity|].
  exact (start_accepted_before_stop_event
           (run (firstn 2 session_until_request) initial) 0
           ClickRecord ClickRecord eq_refl eq_refl eq_refl
           (or_intror eq_refl) (or_intror eq_refl)).
Defined.

(** ** Choosing the language *)

Lemma with_targetLanguage_same (s : State) :
  with_targetLanguage (targetLanguage s) s = s.
Proof. destruct s; reflexivity. Qed.

(** X18. A language button changes nothing while the controller is
    Recording or Processing, and nothing when it names the language
    already selected; otherwise it changes the selected language and
    nothing else. *)
Theorem language_selection (s : State) (k : nat) :
  (isRecording s = true \/ isProcessing s = true ->
   step (ClickLanguage k) s = s) /\
  (nth_error languages k = Some (targetLanguage s) ->
   step (ClickLanguage k) s = s) /\
  (forall lang,
     isRecording s = false -> isProcessing s = false ->
     nth_error languages k = Some lang ->
     step (ClickLanguage k) s = with_targetLanguage lang s).
Proof.
  unfold step. unfold_handlers.
  destruct (isRecording s), (isProcessing s); cbn; repeat split;
    try reflexivity; try (intros [H|H]; discriminate);
    try (intros lang H1 H2; discriminate).
  - intros H. rewrite H. apply with_targetLanguage_same.
  - intros lang _ _ H. now rewrite H.
Qed.

Lemma language_selection_witness :
  (isRecording awaiting_copy = true \/ isProcessing awaiting_copy = true) /\
  step (ClickLanguage 1) awaiting_copy = awaiting_copy.
Proof.
  assert (H : isRecording awaiting_copy = true \/
              isProcessing awaiting_copy = true) by (right; reflexivity).
  split; [exact H|].
  exact (proj1 (language_selection awaiting_copy 1) H).
Defined.

(** ** A recording on its own *)

(** X20. In a recording during which no other device request is granted
    and no other recorder delivers a chunk, whatever else happens
    between the start of the recorder and its stop, the chunk list holds
    the chunks of positive size delivered to the recorder, in the order
    of delivery, and the payload handed to [processAudio] at the stop
    holds exactly the bytes of the delivered chunks, concatenated in
    that order. *)
Theorem payload_in_delivery_order
    (s0 : State) (i : nat) (lang mimeType : jsstring) (evs : list Event) :
  nth_error (pending s0) i = Some (AwaitGetUserMedia lang) ->
  let r := List.length (recorders s0) in
  forallb (own_session r) evs = true ->
  let s := run (MediaSettled i (Granted mimeType) :: evs) s0 in
  audioChunksRef s
  = filter (fun c => 0 <? blob_size c) (delivered_to r evs) /\
  exists payload,
    pending (step (Stopped r) s)
    = pending s ++ [AwaitLoadEnd payload mimeType lang] /\
    blob_bytes payload = List.concat (map blob_bytes (delivered_to r evs)).
Proof.
  intros Hp r Hown s.
  destruct (recording_assembles s0 i lang mimeType evs Hp
              (own_session_no_grant r evs Hown)) as [Hchunks Hstop].
  cbv zeta in Hchunks, Hstop. fold r in Hchunks, Hstop.
  rewrite (own_session_delivered r evs Hown) in Hchunks, Hstop.
  split; [exact Hchunks|].
  exists (new_Blob (filter nonempty (delivered_to r evs)) mimeType).
  split; [exact Hstop | apply concat_nonempty].
Qed.

Lemma payload_in_delivery_order_witness :
  let s0 := step (KeyDown Elsewhere space) initial in
  let r := List.length (recorders s0) in
  let s := run (MediaSettled 0 (Granted webm_opus) :: recording_events) s0 in
  nth_error (pending s0) 0 = Some (AwaitGetUserMedia (js "Português")) /\
  forallb (own_session r) recording_events = true /\
  audioChunksRef s
  = filter (fun c => 0 <? blob_size c) (delivered_to r recording_events) /\
  exists payload,
    pending (step (Stopped r) s)
    = pending s ++ [AwaitLoadEnd payload webm_opus (js "Português")] /\
    blob_bytes payload
    = List.concat (map blob_bytes (delivered_to r recording_events)).
Proof.
  split; [reflexivity|]. split; [reflexivity|].
  exact (payload_in_delivery_order
           (step (KeyDown Elsewhere space) initial) 0 (js "Português")
           webm_opus recording_events eq_refl eq_refl).
Defined.

(** The same recording, computed: the empty chunk is left out and the
    three bytes arrive in order. *)
Example recording_events_payload :
  let s0 := step (KeyDown Elsewhere space) initial in
  let s := run (MediaSettled 0 (Granted webm_opus) :: recording_events) s0 in
  audioChunksRef s = [chunk [x01; x02]%byte; chunk [x03]%byte] /\
  pending (step (Stopped 0) s)
  = [AwaitLoadEnd (mkBlob [x01; x02; x03]%byte webm_opus) webm_opus
                  (js "Português")].
Proof. vm_compute. split; reflexivity. Qed.
